(** * The 6502 core of tsnesemu ([src/cpu.ts]): a shallow embedding

    The class [CPU] of [src/cpu.ts] is embedded as a record of its fields and
    each method as a function that takes the object ([this]) and returns the
    updated object.  JavaScript numbers are modelled by [Z] (the program only
    computes with integers), the two typed arrays by lists of bytes and the
    opcode table by a finite map keyed by the opcode byte. *)

From Stdlib Require Import ZArith List Lia Bool.
From stdpp Require Import base option list gmap.

Local Open Scope Z_scope.

(** ** JavaScript values and operators *)

(** A value of TypeScript type [number] as the program meets it: an integer,
    or [None] for a value that is not a number.  [undefined] (a read outside a
    typed array) and [NaN] (arithmetic on [undefined]) are both [None]: every
    operator the program applies treats the two alike. *)
Definition jsnum : Type := option Z.

Definition num (z : Z) : jsnum := Some z.
Coercion num : Z >-> jsnum.

(** ToInt32 of ECMAScript: reduction modulo 2^32 into [-2^31, 2^31); a value
    that is not a number converts to 0. *)
Definition wrap32 (z : Z) : Z := (z + 0x80000000) mod 0x100000000 - 0x80000000.

Definition ToInt32 (v : jsnum) : Z :=
  match v with
  | Some z => wrap32 z
  | None => 0
  end.

(** ToUint8, the conversion applied by a store into a [Uint8Array]. *)
Definition ToUint8 (v : jsnum) : Z :=
  match v with
  | Some z => z mod 256
  | None => 0
  end.

Definition js_add (a b : jsnum) : jsnum :=
  match a, b with
  | Some x, Some y => Some (x + y)
  | _, _ => None
  end.

Definition js_sub (a b : jsnum) : jsnum :=
  match a, b with
  | Some x, Some y => Some (x - y)
  | _, _ => None
  end.

Definition js_gt (a b : jsnum) : bool :=
  match a, b with
  | Some x, Some y => x >? y
  | _, _ => false
  end.

Definition js_ge (a b : jsnum) : bool :=
  match a, b with
  | Some x, Some y => x >=? y
  | _, _ => false
  end.

Definition js_and (a b : jsnum) : Z := Z.land (ToInt32 a) (ToInt32 b).
Definition js_or (a b : jsnum) : Z := Z.lor (ToInt32 a) (ToInt32 b).
Definition js_xor (a b : jsnum) : Z := Z.lxor (ToInt32 a) (ToInt32 b).

(** [a << b] and [a >> b]: the shift count is the low five bits of [b]. *)
Definition js_shl (a b : jsnum) : Z :=
  wrap32 (Z.shiftl (ToInt32 a) (ToInt32 b mod 32)).
Definition js_shr (a b : jsnum) : Z :=
  Z.shiftr (ToInt32 a) (ToInt32 b mod 32).

(** [x || 0] on a number. *)
Definition js_or_zero (x : Z) : Z := if x =? 0 then 0 else x.

Declare Scope js_scope.
Delimit Scope js_scope with js.
Notation "a [+] b" := (js_add a b) (at level 50, left associativity) : js_scope.
Notation "a [-] b" := (js_sub a b) (at level 50, left associativity) : js_scope.
Notation "a [<<] b" := (js_shl a b) (at level 52, left associativity) : js_scope.
Notation "a [>>] b" := (js_shr a b) (at level 52, left associativity) : js_scope.
Notation "a [>] b" := (js_gt a b) (at level 54, no associativity) : js_scope.
Notation "a [>=] b" := (js_ge a b) (at level 54, no associativity) : js_scope.
Notation "a [&] b" := (js_and a b) (at level 56, left associativity) : js_scope.
Notation "a [^] b" := (js_xor a b) (at level 57, left associativity) : js_scope.
Notation "a [|] b" := (js_or a b) (at level 58, left associativity) : js_scope.
Local Open Scope js_scope.

(** A [Uint8Array]: reading outside the array gives [undefined], writing
    outside it does nothing, and a stored value is reduced to a byte. *)
Definition Uint8Array : Type := list Z.

Definition arr_get (a : Uint8Array) (i : jsnum) : jsnum :=
  match i with
  | Some z => if 0 <=? z then a !! Z.to_nat z else None
  | None => None
  end.

Definition arr_set (a : Uint8Array) (i : jsnum) (v : jsnum) : Uint8Array :=
  match i with
  | Some z => if 0 <=? z then <[Z.to_nat z := ToUint8 v]> a else a
  | None => a
  end.

(** ** The data model *)

(** [enum AddrMode]: a numeric enum, its members are the numbers 0 to 12. *)
Definition AddrMode : Type := Z.
Definition RELATIVE : AddrMode := 0.
Definition ACCUMULATOR : AddrMode := 1.
Definition IMPLIED : AddrMode := 2.
Definition IMMEDIATE : AddrMode := 3.
Definition INDIRECT : AddrMode := 4.
Definition X_INDIRECT : AddrMode := 5.
Definition INDIRECT_Y : AddrMode := 6.
Definition ZEROPAGE : AddrMode := 7.
Definition ZEROPAGE_X : AddrMode := 8.
Definition ZEROPAGE_Y : AddrMode := 9.
Definition ABSOLUTE : AddrMode := 10.
Definition ABSOLUTE_X : AddrMode := 11.
Definition ABSOLUTE_Y : AddrMode := 12.

(** The fields of [class CPU].  [PC] is a [jsnum] because [branch] adds the
    operand to it; the other registers are only ever assigned numbers.  The
    flags keep the source's names behind the prefix [flag_]. *)
Record CPU : Type := mkCPU {
  A : Z;
  X : Z;
  Y : Z;
  SP : Z;
  PC : jsnum;
  flag_N : Z;
  flag_V : Z;
  flag_B5 : Z;
  flag_B4 : Z;
  flag_D : Z;
  flag_I : Z;
  flag_Z : Z;
  flag_C : Z;
  mem : Uint8Array;
  ops : Uint8Array
}.

Definition set_A (v : Z) (this : CPU) : CPU :=
  mkCPU v (X this) (Y this) (SP this) (PC this) (flag_N this) (flag_V this)
    (flag_B5 this) (flag_B4 this) (flag_D this) (flag_I this) (flag_Z this)
    (flag_C this) (mem this) (ops this).
Definition set_X (v : Z) (this : CPU) : CPU :=
  mkCPU (A this) v (Y this) (SP this) (PC this) (flag_N this) (flag_V this)
    (flag_B5 this) (flag_B4 this) (flag_D this) (flag_I this) (flag_Z this)
    (flag_C this) (mem this) (ops this).
Definition set_Y (v : Z) (this : CPU) : CPU :=
  mkCPU (A this) (X this) v (SP this) (PC this) (flag_N this) (flag_V this)
    (flag_B5 this) (flag_B4 this) (flag_D this) (flag_I this) (flag_Z this)
    (flag_C this) (mem this) (ops this).
Definition set_SP (v : Z) (this : CPU) : CPU :=
  mkCPU (A this) (X this) (Y this) v (PC this) (flag_N this) (flag_V this)
    (flag_B5 this) (flag_B4 this) (flag_D this) (flag_I this) (flag_Z this)
    (flag_C this) (mem this) (ops this).
Definition set_PC (v : jsnum) (this : CPU) : CPU :=
  mkCPU (A this) (X this) (Y this) (SP this) v (flag_N this) (flag_V this)
    (flag_B5 this) (flag_B4 this) (flag_D this) (flag_I this) (flag_Z this)
    (flag_C this) (mem this) (ops this).
Definition set_N (v : Z) (this : CPU) : CPU :=
  mkCPU (A this) (X this) (Y this) (SP this) (PC this) v (flag_V this)
    (flag_B5 this) (flag_B4 this) (flag_D this) (flag_I this) (flag_Z this)
    (flag_C this) (mem this) (ops this).
Definition set_V (v : Z) (this : CPU) : CPU :=
  mkCPU (A this) (X this) (Y this) (SP this) (PC this) (flag_N this) v
    (flag_B5 this) (flag_B4 this) (flag_D this) (flag_I this) (flag_Z this)
    (flag_C this) (mem this) (ops this).
Definition set_D (v : Z) (this : CPU) : CPU :=
  mkCPU (A this) (X this) (Y this) (SP this) (PC this) (flag_N this)
    (flag_V this) (flag_B5 this) (flag_B4 this) v (flag_I this) (flag_Z this)
    (flag_C this) (mem this) (ops this).
Definition set_I (v : Z) (this : CPU) : CPU :=
  mkCPU (A this) (X this) (Y this) (SP this) (PC this) (flag_N this)
    (flag_V this) (flag_B5 this) (flag_B4 this) (flag_D this) v (flag_Z this)
    (flag_C this) (mem this) (ops this).
Definition set_Z (v : Z) (this : CPU) : CPU :=
  mkCPU (A this) (X this) (Y this) (SP this) (PC this) (flag_N this)
    (flag_V this) (flag_B5 this) (flag_B4 this) (flag_D this) (flag_I this) v
    (flag_C this) (mem this) (ops this).
Definition set_C (v : Z) (this : CPU) : CPU :=
  mkCPU (A this) (X this) (Y this) (SP this) (PC this) (flag_N this)
    (flag_V this) (flag_B5 this) (flag_B4 this) (flag_D this) (flag_I this)
    (flag_Z this) v (mem this) (ops this).
Definition set_mem (v : Uint8Array) (this : CPU) : CPU :=
  mkCPU (A this) (X this) (Y this) (SP this) (PC this) (flag_N this)
    (flag_V this) (flag_B5 this) (flag_B4 this) (flag_D this) (flag_I this)
    (flag_Z this) (flag_C this) v (ops this).

(** [type OpCodeFunc = (oper: number) => number]: a handler is a closure over
    [this]; here it takes the object and returns its result with the updated
    object. *)
Definition OpCodeFunc : Type := jsnum -> CPU -> Z * CPU.

Record OpCodeInfo : Type := mkOpCodeInfo {
  op : OpCodeFunc;
  opc : Z;
  addr : AddrMode;
  bytes : Z;
  cycles : Z
}.

(** ** Instruction handlers *)

(** Add Memory to Accumulator with Carry *)
Definition ADC : OpCodeFunc := fun oper this =>
  let result := A this [+] oper [+] flag_C this in
  let this := set_C (if result [>] 0xff then 1 else 0) this in
  let result := result [&] 0xff in
  let this :=
    set_V (if ((result [^] oper) [&] (A this [^] oper) [&] 0x80) [>] 0
           then 1 else 0) this in
  let this := set_N (if (result [&] 0x80) [>] 0 then 1 else 0) this in
  let this := set_Z (if result =? 0 then 1 else 0) this in
  let this := set_A result this in
  (0, this).

(** AND Memory with Accumulator *)
Definition AND : OpCodeFunc := fun oper this =>
  let result := A this [&] oper in
  let this := set_N (if (result [&] 0x80) [>] 0 then 1 else 0) this in
  let this := set_Z (if result =? 0 then 1 else 0) this in
  let this := set_A result this in
  (0, this).

(** Shift Left One Bit (Memory or Accumulator) *)
Definition ASL : OpCodeFunc := fun oper this =>
  let result := A this [<<] 1 in
  let this := set_C (if result [>] 0xff then 1 else 0) this in
  let result := result [&] 0xff in
  let this := set_N (if (result [&] 0x80) [>] 0 then 1 else 0) this in
  let this := set_Z (if result =? 0 then 1 else 0) this in
  let this := set_A result this in
  (0, this).

(** The common function of the branches: it assigns [PC] from the operand and
    returns the cycles of the branch. *)
Definition branch (oper : jsnum) (this : CPU) : Z * CPU :=
  let result :=
    if oper [>] 0x7f then PC this [+] oper else PC this [-] 256 [+] oper in
  let cycles :=
    if (result [&] 0xff00) =? (PC this [&] 0xff00) then 1 else 2 in
  let this := set_PC result this in
  (cycles, this).

(** Branch on Carry Clear *)
Definition BCC : OpCodeFunc := fun oper this =>
  if flag_C this =? 0 then branch oper this else (0, this).

(** Branch on Carry Set *)
Definition BCS : OpCodeFunc := fun oper this =>
  if negb (flag_C this =? 0) then branch oper this else (0, this).

(** Branch on Result Zero *)
Definition BEQ : OpCodeFunc := fun oper this =>
  if negb (flag_Z this =? 0) then branch oper this else (0, this).

(** Test Bits in Memory with Accumulator *)
Definition BIT : OpCodeFunc := fun oper this =>
  let result := A this [&] oper in
  let this := set_Z (if result =? 0 then 1 else 0) this in
  let this := set_N (if (result [&] 0x80) =? 1 then 1 else 0) this in
  let this := set_V (if (result [&] 0x40) =? 1 then 1 else 0) this in
  (0, this).

(** Branch on Result Minus *)
Definition BMI : OpCodeFunc := fun oper this =>
  if negb (flag_N this =? 0) then branch oper this else (0, this).

(** Branch on Result not Zero *)
Definition BNE : OpCodeFunc := fun oper this =>
  if negb (flag_Z this =? 0) then branch oper this else (0, this).

(** Branch on Result Plus *)
Definition BPL : OpCodeFunc := fun oper this =>
  if flag_N this =? 0 then branch oper this else (0, this).

Definition push (value : jsnum) (this : CPU) : CPU :=
  let this := set_mem (arr_set (mem this) (SP this) value) this in
  let this := set_SP (SP this - 1) this in
  let this := set_SP ((SP this [&] 0xff) [|] 0x0100) this in
  this.

Definition packSR (this : CPU) : Z :=
  flag_C this [|]
  flag_Z this [<<] 1 [|]
  flag_I this [<<] 2 [|]
  flag_D this [<<] 3 [|]
  flag_B4 this [<<] 4 [|]
  flag_B5 this [<<] 5 [|]
  flag_V this [<<] 6 [|]
  flag_N this [<<] 7.

(** Force Break *)
Definition BRK : OpCodeFunc := fun oper this =>
  let this := push (PC this [+] 2) this in
  let this := push (packSR this) this in
  let this := set_I 1 this in
  (0, this).

(** Branch on Overflow Clear *)
Definition BVC : OpCodeFunc := fun oper this =>
  if flag_V this =? 0 then branch oper this else (0, this).

(** Branch on Overflow Set *)
Definition BVS : OpCodeFunc := fun oper this =>
  if flag_V this =? 1 then branch oper this else (0, this).

(** Clear Carry Flag *)
Definition CLC : OpCodeFunc := fun oper this => (0, set_C 0 this).

(** Clear Decimal Mode *)
Definition CLD : OpCodeFunc := fun oper this => (0, set_D 0 this).

(** Clear Interrupt Disable Bit *)
Definition CLI : OpCodeFunc := fun oper this => (0, set_I 0 this).

(** Clear Overflow Flag *)
Definition CLV : OpCodeFunc := fun oper this => (0, set_V 0 this).

(** Compare Memory with Accumulator *)
Definition CMP : OpCodeFunc := fun oper this =>
  let result := A this [-] oper in
  let this := set_C (if result [>=] 0 then 1 else 0) this in
  let this := set_N (if ((result [>>] 7) [&] 1) =? 1 then 1 else 0) this in
  let this := set_Z (if (result [&] 0xff) =? 0 then 1 else 0) this in
  (0, this).

(** Compare Memory and Index X *)
Definition CPX : OpCodeFunc := fun oper this =>
  let result := X this [-] oper in
  let this := set_C (if result [>=] 0 then 1 else 0) this in
  let this := set_N (if ((result [>>] 7) [&] 1) =? 1 then 1 else 0) this in
  let this := set_Z (if (result [&] 0xff) =? 0 then 1 else 0) this in
  (0, this).

(** Compare Memory and Index Y *)
Definition CPY : OpCodeFunc := fun oper this =>
  let result := Y this [-] oper in
  let this := set_C (if result [>=] 0 then 1 else 0) this in
  let this := set_N (if ((result [>>] 7) [&] 1) =? 1 then 1 else 0) this in
  let this := set_Z (if (result [&] 0xff) =? 0 then 1 else 0) this in
  (0, this).

(** ** The opcode table *)

(** [this.opCodeMap]: an object used as a map from the opcode byte to its
    descriptor.  It is filled by the constructor and never written again, so
    it is a constant of the model rather than a field of [CPU]. *)
Abbreviation OpCodeMap := (gmap Z OpCodeInfo).

Definition addOpCode (op : OpCodeFunc) (opc : Z) (addr : AddrMode)
    (bytes : Z) (cycles : Z) (opCodeMap : OpCodeMap) : OpCodeMap :=
  <[opc := mkOpCodeInfo op opc addr bytes cycles]> opCodeMap.

(** The calls of [initOpCodeMap], in the order and with the arguments of the
    source. *)
Definition initOpCodeMap (opCodeMap : OpCodeMap) : OpCodeMap :=
  (* ADC: Add Memory to Accumulator with Carry *)
  let opCodeMap := addOpCode ADC 0x69 2 2 IMMEDIATE opCodeMap in
  let opCodeMap := addOpCode ADC 0x65 2 3 ZEROPAGE opCodeMap in
  let opCodeMap := addOpCode ADC 0x75 2 4 ZEROPAGE_X opCodeMap in
  let opCodeMap := addOpCode ADC 0x6d 3 4 ABSOLUTE opCodeMap in
  let opCodeMap := addOpCode ADC 0x7d 3 4 ABSOLUTE_X opCodeMap in
  let opCodeMap := addOpCode ADC 0x79 3 4 ABSOLUTE_Y opCodeMap in
  let opCodeMap := addOpCode ADC 0x61 2 6 X_INDIRECT opCodeMap in
  let opCodeMap := addOpCode ADC 0x71 2 5 INDIRECT_Y opCodeMap in
  (* AND: AND Memory with Accumulator *)
  let opCodeMap := addOpCode AND 0x29 2 2 IMMEDIATE opCodeMap in
  let opCodeMap := addOpCode AND 0x25 2 3 ZEROPAGE opCodeMap in
  let opCodeMap := addOpCode AND 0x35 2 4 ZEROPAGE_X opCodeMap in
  let opCodeMap := addOpCode AND 0x2d 3 4 ABSOLUTE opCodeMap in
  let opCodeMap := addOpCode AND 0x3d 3 4 ABSOLUTE_X opCodeMap in
  let opCodeMap := addOpCode AND 0x39 3 4 ABSOLUTE_Y opCodeMap in
  let opCodeMap := addOpCode AND 0x21 2 6 X_INDIRECT opCodeMap in
  let opCodeMap := addOpCode AND 0x31 2 5 INDIRECT_Y opCodeMap in
  (* ASL: Shift Left One Bit (Memory or Accumulator) *)
  let opCodeMap := addOpCode ASL 0x0a 1 2 ACCUMULATOR opCodeMap in
  let opCodeMap := addOpCode ASL 0x06 2 5 ZEROPAGE opCodeMap in
  let opCodeMap := addOpCode ASL 0x16 2 6 ZEROPAGE_X opCodeMap in
  let opCodeMap := addOpCode ASL 0x0e 3 6 ABSOLUTE opCodeMap in
  let opCodeMap := addOpCode ASL 0x1e 3 7 ABSOLUTE_X opCodeMap in
  (* BCC: Branch on Carry Clear *)
  let opCodeMap := addOpCode BCC 0x90 2 2 RELATIVE opCodeMap in
  (* BCS: Branch on Carry Set *)
  let opCodeMap := addOpCode BCS 0xb0 2 2 RELATIVE opCodeMap in
  (* BEQ: Branch on Result Zero *)
  let opCodeMap := addOpCode BEQ 0xf0 2 2 RELATIVE opCodeMap in
  (* BIT: Test Bits in Memory with Accumulator *)
  let opCodeMap := addOpCode BIT 0x24 2 3 ZEROPAGE opCodeMap in
  let opCodeMap := addOpCode BIT 0x2c 3 4 ABSOLUTE opCodeMap in
  (* BMI: Branch on Result Minus *)
  let opCodeMap := addOpCode BMI 0x30 2 2 RELATIVE opCodeMap in
  (* BNE: Branch on Result not Zero *)
  let opCodeMap := addOpCode BNE 0xd0 2 2 RELATIVE opCodeMap in
  (* BPL: Branch on Result Plus *)
  let opCodeMap := addOpCode BPL 0x10 2 2 RELATIVE opCodeMap in
  (* BRK: Force Break *)
  let opCodeMap := addOpCode BRK 0x00 1 7 IMPLIED opCodeMap in
  (* BVC: Branch on Overflow Clear *)
  let opCodeMap := addOpCode BVC 0x50 2 2 RELATIVE opCodeMap in
  (* BVS: Branch on OVerflow Set *)
  let opCodeMap := addOpCode BVS 0x70 2 2 RELATIVE opCodeMap in
  (* CLC: Clear Carry Flag *)
  let opCodeMap := addOpCode CLC 0x18 1 2 IMPLIED opCodeMap in
  (* CLD: Clear Decimal Mode *)
  let opCodeMap := addOpCode CLD 0xd8 1 2 IMPLIED opCodeMap in
  (* CLI: Clear Interrupt Disable Bit *)
  let opCodeMap := addOpCode CLI 0x58 1 2 IMPLIED opCodeMap in
  (* CLV: Clear Overflow Flag *)
  let opCodeMap := addOpCode CLV 0xb8 1 2 IMPLIED opCodeMap in
  (* CMP: Compare Memory with Accumulator *)
  let opCodeMap := addOpCode CMP 0xc9 2 2 IMMEDIATE opCodeMap in
  let opCodeMap := addOpCode CMP 0xc5 2 3 ZEROPAGE opCodeMap in
  let opCodeMap := addOpCode CMP 0xd5 2 4 ZEROPAGE_X opCodeMap in
  let opCodeMap := addOpCode CMP 0xcd 3 4 ABSOLUTE opCodeMap in
  let opCodeMap := addOpCode CMP 0xdd 3 4 ABSOLUTE_X opCodeMap in
  let opCodeMap := addOpCode CMP 0xd9 3 4 ABSOLUTE_Y opCodeMap in
  let opCodeMap := addOpCode CMP 0xc1 2 6 X_INDIRECT opCodeMap in
  let opCodeMap := addOpCode CMP 0xd1 2 5 INDIRECT_Y opCodeMap in
  (* CPX: Compare Memory and Index X *)
  let opCodeMap := addOpCode CPX 0xe0 2 2 IMMEDIATE opCodeMap in
  let opCodeMap := addOpCode CPX 0xe4 2 3 ZEROPAGE opCodeMap in
  let opCodeMap := addOpCode CPX 0xec 3 4 ABSOLUTE opCodeMap in
  (* CPY: Compare Memory and Index Y *)
  let opCodeMap := addOpCode CPY 0xc0 2 2 IMMEDIATE opCodeMap in
  let opCodeMap := addOpCode CPY 0xc4 2 3 ZEROPAGE opCodeMap in
  let opCodeMap := addOpCode CPY 0xcc 3 4 ABSOLUTE opCodeMap in
  opCodeMap.

Definition opCodeMap : OpCodeMap := initOpCodeMap ∅.

(** [this.opCodeMap[opc]]: a key that is not a number names no entry. *)
Definition opCodeMap_get (opc : jsnum) : option OpCodeInfo :=
  match opc with
  | Some k => opCodeMap !! k
  | None => None
  end.

(** ** The constructor *)

(** The field initialisers and [this.mem = new Uint8Array(0x10000)]. *)
Definition new_CPU (ops : Uint8Array) : CPU :=
  {| A := 0x01ff; X := 0; Y := 0;
     SP := 0; PC := 0;
     flag_N := 0; flag_V := 0; flag_B5 := 0; flag_B4 := 0; flag_D := 0;
     flag_I := 0; flag_Z := 0; flag_C := 0;
     mem := replicate (Z.to_nat 0x10000) 0;
     ops := ops |}.

Definition loadOpCode (this : CPU) (pc : jsnum) : jsnum := arr_get (ops this) pc.

(** ** Addressing *)

(** The body of [case AddrMode.ABSOLUTE_Y], entered with the value [cycleAdd]
    has at that point: from the switch, or from the case above it. *)
Definition address_ABSOLUTE_Y (this : CPU) (arg : jsnum) (cycleAdd : Z)
    : jsnum * Z :=
  let cycleAdd :=
    if negb ((arg [&] 0xff00) =? ((arg [+] Y this) [&] 0xff00))
    then 1 else cycleAdd in
  let value := arr_get (mem this) (arg [+] Y this) in
  (value, cycleAdd).

(** [address(addrMode, arg)]: the switch, case by case in the order of the
    source.  [case AddrMode.ABSOLUTE_X] has no [break], so after its own body
    it runs the body of [case AddrMode.ABSOLUTE_Y].  A mode with no case
    leaves [value] and [cycleAdd] at 0. *)
Definition address (this : CPU) (addrMode : AddrMode) (arg : jsnum)
    : jsnum * Z :=
  let cycleAdd : Z := 0 in
  let value : jsnum := 0 in
  if addrMode =? ABSOLUTE then
    let value := arr_get (mem this) arg in
    (value, cycleAdd)
  else if addrMode =? ABSOLUTE_X then
    let cycleAdd :=
      if negb ((arg [&] 0xff00) =? ((arg [+] X this) [&] 0xff00))
      then 1 else cycleAdd in
    let value := arr_get (mem this) (arg [+] X this) in
    address_ABSOLUTE_Y this arg cycleAdd
  else if addrMode =? ABSOLUTE_Y then
    address_ABSOLUTE_Y this arg cycleAdd
  else if addrMode =? IMMEDIATE then
    let value := arg in
    (value, cycleAdd)
  else if addrMode =? INDIRECT then
    let ll := arr_get (mem this) arg in
    let hh := arr_get (mem this) ((arg [+] 1) [&] 0xff) in
    let value := arr_get (mem this) (hh [<<] (8 [+] ll)) in
    (value, cycleAdd)
  else if addrMode =? X_INDIRECT then
    let arg := arg [&] 0xff in
    let ll := arr_get (mem this) ((arg [+] X this) [&] 0xff) in
    let hh := arr_get (mem this) ((arg [+] X this [+] 1) [&] 0xff) in
    let value := arr_get (mem this) (hh [<<] (8 [+] ll)) in
    (value, cycleAdd)
  else if addrMode =? INDIRECT_Y then
    let arg := arg [&] 0xff in
    let ll := arr_get (mem this) arg in
    let hh := arr_get (mem this) ((arg [+] 1) [&] 0xff) in
    let addr := hh [<<] (8 [+] ll) in
    let cycleAdd :=
      if negb ((addr [&] 0xff00) =? ((addr [+] Y this) [&] 0xff00))
      then 1 else cycleAdd in
    let value := arr_get (mem this) (addr [+] Y this) in
    (value, cycleAdd)
  else if addrMode =? ZEROPAGE then
    let value := arr_get (mem this) (arg [&] 0xff) in
    (value, cycleAdd)
  else if addrMode =? ZEROPAGE_X then
    let value := arr_get (mem this) ((arg [+] X this) [&] 0xff) in
    (value, cycleAdd)
  else if addrMode =? ZEROPAGE_Y then
    let value := arr_get (mem this) ((arg [+] Y this) [&] 0xff) in
    (value, cycleAdd)
  else (value, cycleAdd).

(** ** The execution engine *)

(** The only exception a step raises: destructuring [undefined]. *)
Inductive Error : Type := TypeError.

Inductive Completion (T : Type) : Type :=
  | Return (v : T)
  | Throw (e : Error).
Arguments Return {T} v.
Arguments Throw {T} e.

(** [runop()]: one instruction.  The result is the value returned or the
    exception thrown, with the object as the step leaves it. *)
Definition runop (this : CPU) : Completion Z * CPU :=
  let opc := loadOpCode this (PC this) in
  match opCodeMap_get opc with
  | None => (Throw TypeError, this)
  | Some info =>
    let arg : jsnum :=
      if bytes info =? 2 then loadOpCode this (PC this [+] 1)
      else if bytes info =? 3 then
        num (loadOpCode this (PC this [+] 2)
               [<<] (8 [+] loadOpCode this (PC this [+] 1)))
      else 0 in
    let '(oper, cycleAdd1) := address this (addr info) arg in
    let this := set_PC (PC this [+] bytes info) this in
    let '(ret, this) := op info oper this in
    let cycleAdd2 := js_or_zero ret in
    (Return (cycles info + cycleAdd1 + cycleAdd2), this)
  end.

(** ** Definitions used by the statements *)

(** The signed value of a byte, and the textbook overflow rule of an 8-bit
    addition with carry: the signed sum does not fit in [-128, 127]. *)
Definition signed8 (b : Z) : Z := if b <? 128 then b else b - 256.

Definition signed_overflow (a b c : Z) : bool :=
  let sum := signed8 a + signed8 b + c in
  (sum <? -128) || (127 <? sum).

(** A property of bytes holds as soon as it holds of each of the 256. *)
Definition bytes_all (P : Z -> bool) : bool :=
  forallb P (map Z.of_nat (seq 0 256)).

(** The expression of [ADC] for the Overflow flag, on bytes (where ToInt32
    changes nothing): it is positive when V is set. *)
Definition ADC_V_bits (a b c : Z) : Z :=
  Z.land (Z.land (Z.lxor ((a + b + c) mod 256) b) (Z.lxor a b)) 0x80.

(** One line of the truth table: if the signed sum overflows, the expression
    of [ADC] is not positive. *)
Definition overflow_leaves_V_clear (a b c : Z) : bool :=
  implb (signed_overflow a b c) (negb (ADC_V_bits a b c >? 0)).

(** The twenty handlers that [initOpCodeMap] registers. *)
Definition handlers : list OpCodeFunc :=
  [ADC; AND; ASL; BCC; BCS; BEQ; BIT; BMI; BNE; BPL; BRK; BVC; BVS;
   CLC; CLD; CLI; CLV; CMP; CPX; CPY].

(** What every entry of the table looks like: [addOpCode] receives the byte
    length in its [addr] parameter, so the mode stored is ACCUMULATOR, IMPLIED
    or IMMEDIATE, and an IMMEDIATE entry has a stored length other than 2 and
    3. *)
Definition entry_shape (info : OpCodeInfo) : Prop :=
  In (op info) handlers /\
  (addr info = ACCUMULATOR \/ addr info = IMPLIED \/
   (addr info = IMMEDIATE /\ (bytes info =? 2) = false
      /\ (bytes info =? 3) = false)).

(** The size the constructor gives to [mem]. *)
Definition mem_64K (this : CPU) : Prop :=
  Z.of_nat (length (mem this)) = 0x10000.

(** C4 as it is worded, at a state: the byte is written at 0x0100 + SP and SP
    becomes SP - 1 within 8 bits. *)
Definition push_as_claimed (value : Z) (this : CPU) : Prop :=
  arr_get (mem (push value this)) (0x0100 + SP this) = Some value /\
  SP (push value this) = (SP this - 1) mod 256.

Definition is_flag (f : Z) : Prop := f = 0 \/ f = 1.

Definition flags_ok (this : CPU) : Prop :=
  is_flag (flag_N this) /\ is_flag (flag_V this) /\
  is_flag (flag_B5 this) /\ is_flag (flag_B4 this) /\
  is_flag (flag_D this) /\ is_flag (flag_I this) /\
  is_flag (flag_Z this) /\ is_flag (flag_C this).

(** The invariant as C5 words it. *)
Definition reg_inv (this : CPU) : Prop :=
  0 <= A this <= 255 /\ 0 <= X this <= 255 /\ 0 <= Y this <= 255 /\
  0 <= SP this <= 255 /\
  (exists pc, PC this = Some pc /\ 0 <= pc <= 65535) /\
  flags_ok this.

(** The same invariant as a test. *)
Definition in_range (lo hi x : Z) : bool := (lo <=? x) && (x <=? hi).

Definition is_flagb (f : Z) : bool := (f =? 0) || (f =? 1).

Definition reg_invb (this : CPU) : bool :=
  in_range 0 255 (A this) && in_range 0 255 (X this) &&
  in_range 0 255 (Y this) && in_range 0 255 (SP this) &&
  match PC this with
  | Some pc => in_range 0 65535 pc
  | None => false
  end &&
  is_flagb (flag_N this) && is_flagb (flag_V this) &&
  is_flagb (flag_B5 this) && is_flagb (flag_B4 this) &&
  is_flagb (flag_D this) && is_flagb (flag_I this) &&
  is_flagb (flag_Z this) && is_flagb (flag_C this).

(** The invariant the steps keep: SP is a byte, or a byte under the
    stack-page bit 0x0100 that [push] sets; PC is left out. *)
Definition reg_inv_code (this : CPU) : Prop :=
  0 <= A this <= 255 /\ 0 <= X this <= 255 /\ 0 <= Y this <= 255 /\
  0 <= SP this <= 0x01FF /\
  flags_ok this.

(** The page of an address, as the source computes it. *)
Definition page (a : jsnum) : Z := a [&] 0xff00.

(** BRK at address 0 of a cleared machine whose SP is 0x01FF and whose
    interrupt vector holds 0x1234. *)
Definition BRK_scenario : CPU :=
  let this := set_SP 0x01FF (new_CPU [0x00]) in
  set_mem (arr_set (arr_set (mem this) 0xFFFE 0x34) 0xFFFF 0x12) this.

(** The pointer 0x02FF: its low byte, at 0x02FF, is 0x01; the start of its
    page, 0x0200, holds 0x12 and address 0x0000 holds 0x03.  The claim reads
    the operand at 0x1201 (0xAA); the code reads it at 3 << 9 = 0x0600
    (0xBB). *)
Definition INDIRECT_scenario : CPU :=
  let this := new_CPU [] in
  let m := arr_set (mem this) 0x02FF 0x01 in
  let m := arr_set m 0x0200 0x12 in
  let m := arr_set m 0x0000 0x03 in
  let m := arr_set m 0x1201 0xAA in
  let m := arr_set m 0x0600 0xBB in
  set_mem m this.

(** The eight conditional-branch handlers. *)
Definition branch_handlers : list OpCodeFunc :=
  [BCC; BCS; BEQ; BMI; BNE; BPL; BVC; BVS].

(** Successive pushes, first value first. *)
Definition push_all (values : list jsnum) (this : CPU) : CPU :=
  fold_left (fun this value => push value this) values this.

(** The handlers of the table other than BRK. *)
Definition handlers_without_BRK : list OpCodeFunc :=
  [ADC; AND; ASL; BCC; BCS; BEQ; BIT; BMI; BNE; BPL; BVC; BVS;
   CLC; CLD; CLI; CLV; CMP; CPX; CPY].

(** A machine for the pointer modes: page zero holds 0x01 at 0xFF and 0x03
    at 0x00, X is 0x0F and Y is 0x02. *)
Definition pointer_scenario : CPU :=
  let this := set_Y 0x02 (set_X 0x0F (new_CPU [])) in
  set_mem (arr_set (arr_set (mem this) 0xFF 0x01) 0x00 0x03) this.

(** ** The emulator object *)

(** [class NesEmu]: its only field is [rom], [null] until [loadRom] is
    called. *)
Record NesEmu : Type := mkNesEmu {
  rom : option Uint8Array
}.


Definition loadRom (rom : Uint8Array) (this : NesEmu) : NesEmu :=
  {| rom := Some rom |}.

(** What the methods of [NesEmu] throw: the [Error] of [validateRom], or a
    TypeError (from [null.slice] or from the step). *)
Inductive NesEmuError : Type :=
  | Error_Call_loadRom_first
  | Error_TypeError.


(** [run()]: the CPU is built on the rom without its first 16 bytes and runs
    one step; the CPU is local, so all that is left of the call is whether it
    threw. *)
Definition run (this : NesEmu) : option NesEmuError :=
  match rom this with
  | None => Some Error_TypeError
  | Some rom =>
    let ops := drop 16 rom in
    let cpu := new_CPU ops in
    match (runop cpu).1 with
    | Throw TypeError => Some Error_TypeError
    | Return _ => None
    end
  end.

(** ** The earlier copy of the CPU ([src/unnamed/part_001]) *)

(** The second file of the repository that declares [class CPU]: one Break
    flag, an ADC handler with an empty body, a table of the eight ADC
    opcodes, and a switch in [address] where every case ends in [break].
    [enum AddrMode] is the same and the JavaScript operators are shared. *)
Module Part001.

Record CPU : Type := mkCPU {
  A : Z;
  X : Z;
  Y : Z;
  SP : Z;
  PC : jsnum;
  flag_N : Z;
  flag_V : Z;
  flag_B : Z;
  flag_I : Z;
  flag_Z : Z;
  flag_C : Z;
  mem : Uint8Array;
  ops : Uint8Array
}.

Definition set_PC (v : jsnum) (this : CPU) : CPU :=
  mkCPU (A this) (X this) (Y this) (SP this) v (flag_N this) (flag_V this)
    (flag_B this) (flag_I this) (flag_Z this) (flag_C this) (mem this)
    (ops this).

(** [type OpCodeFunc = (oper: number) => void]. *)
Definition OpCodeFunc : Type := jsnum -> CPU -> CPU.

Record OpCodeInfo : Type := mkOpCodeInfo {
  op : OpCodeFunc;
  opc : Z;
  addr : AddrMode;
  bytes : Z;
  cycles : Z
}.

(** [ADC: OpCodeFunc = (oper: number) => {}]. *)
Definition ADC : OpCodeFunc := fun oper this => this.

Definition addOpCode (op : OpCodeFunc) (opc : Z) (addr : AddrMode)
    (bytes : Z) (cycles : Z) (opCodeMap : gmap Z OpCodeInfo)
    : gmap Z OpCodeInfo :=
  <[opc := mkOpCodeInfo op opc addr bytes cycles]> opCodeMap.

Definition initOpCodeMap (opCodeMap : gmap Z OpCodeInfo)
    : gmap Z OpCodeInfo :=
  let opCodeMap := addOpCode ADC 0x69 2 2 IMMEDIATE opCodeMap in
  let opCodeMap := addOpCode ADC 0x65 2 3 ZEROPAGE opCodeMap in
  let opCodeMap := addOpCode ADC 0x75 2 4 ZEROPAGE_X opCodeMap in
  let opCodeMap := addOpCode ADC 0x6d 3 4 ABSOLUTE opCodeMap in
  let opCodeMap := addOpCode ADC 0x7d 3 4 ABSOLUTE_X opCodeMap in
  let opCodeMap := addOpCode ADC 0x79 3 4 ABSOLUTE_Y opCodeMap in
  let opCodeMap := addOpCode ADC 0x61 2 6 X_INDIRECT opCodeMap in
  let opCodeMap := addOpCode ADC 0x71 2 5 INDIRECT_Y opCodeMap in
  opCodeMap.

Definition opCodeMap : gmap Z OpCodeInfo := initOpCodeMap ∅.

Definition opCodeMap_get (opc : jsnum) : option OpCodeInfo :=
  match opc with
  | Some k => opCodeMap !! k
  | None => None
  end.

Definition new_CPU (ops : Uint8Array) : CPU :=
  {| A := 0; X := 0; Y := 0;
     SP := 0; PC := 0;
     flag_N := 0; flag_V := 0; flag_B := 0; flag_I := 0; flag_Z := 0;
     flag_C := 0;
     mem := replicate (Z.to_nat 0x10000) 0;
     ops := ops |}.

Definition loadOpCode (this : CPU) (pc : jsnum) : jsnum := arr_get (ops this) pc.

(** [address(addrMode, arg)] of this copy: [value] is declared without an
    initial value, so a mode with no case (RELATIVE) returns [undefined]. *)
Definition address (this : CPU) (addrMode : AddrMode) (arg : jsnum)
    : jsnum * Z :=
  let cycleAdd : Z := 0 in
  let value : jsnum := None in
  if addrMode =? ACCUMULATOR then
    let value : jsnum := 0 in
    (value, cycleAdd)
  else if addrMode =? IMPLIED then
    let value : jsnum := 0 in
    (value, cycleAdd)
  else if addrMode =? ABSOLUTE then
    let value := arr_get (mem this) arg in
    (value, cycleAdd)
  else if addrMode =? ABSOLUTE_X then
    let cycleAdd :=
      if negb ((arg [&] 0xff00) =? ((arg [+] X this) [&] 0xff00))
      then 1 else cycleAdd in
    let value := arr_get (mem this) (arg [+] X this) in
    (value, cycleAdd)
  else if addrMode =? ABSOLUTE_Y then
    let cycleAdd :=
      if negb ((arg [&] 0xff00) =? ((arg [+] Y this) [&] 0xff00))
      then 1 else cycleAdd in
    let value := arr_get (mem this) (arg [+] Y this) in
    (value, cycleAdd)
  else if addrMode =? IMMEDIATE then
    let value := arg in
    (value, cycleAdd)
  else if addrMode =? INDIRECT then
    let ll := arr_get (mem this) arg in
    let hh := arr_get (mem this) ((arg [+] 1) [&] 0xff) in
    let value := arr_get (mem this) (hh [<<] (8 [+] ll)) in
    (value, cycleAdd)
  else if addrMode =? X_INDIRECT then
    let arg := arg [&] 0xff in
    let ll := arr_get (mem this) ((arg [+] X this) [&] 0xff) in
    let hh := arr_get (mem this) ((arg [+] X this [+] 1) [&] 0xff) in
    let value := arr_get (mem this) (hh [<<] (8 [+] ll)) in
    (value, cycleAdd)
  else if addrMode =? INDIRECT_Y then
    let arg := arg [&] 0xff in
    let ll := arr_get (mem this) arg in
    let hh := arr_get (mem this) ((arg [+] 1) [&] 0xff) in
    let addr := hh [<<] (8 [+] ll) in
    let cycleAdd :=
      if negb ((addr [&] 0xff00) =? ((addr [+] Y this) [&] 0xff00))
      then 1 else cycleAdd in
    let value := arr_get (mem this) (addr [+] Y this) in
    (value, cycleAdd)
  else if addrMode =? ZEROPAGE then
    let value := arr_get (mem this) (arg [&] 0xff) in
    (value, cycleAdd)
  else if addrMode =? ZEROPAGE_X then
    let value := arr_get (mem this) ((arg [+] X this) [&] 0xff) in
    (value, cycleAdd)
  else if addrMode =? ZEROPAGE_Y then
    let value := arr_get (mem this) ((arg [+] Y this) [&] 0xff) in
    (value, cycleAdd)
  else (value, cycleAdd).

(** [runop()] of this copy: the handler returns nothing and the result is
    [cycles + cycleAdd]. *)
Definition runop (this : CPU) : Completion Z * CPU :=
  let opc := loadOpCode this (PC this) in
  match opCodeMap_get opc with
  | None => (Throw TypeError, this)
  | Some info =>
    let arg : jsnum :=
      if bytes info =? 2 then loadOpCode this (PC this [+] 1)
      else if bytes info =? 3 then
        num (loadOpCode this (PC this [+] 2)
               [<<] (8 [+] loadOpCode this (PC this [+] 1)))
      else 0 in
    let '(oper, cycleAdd) := address this (addr info) arg in
    let this := set_PC (PC this [+] bytes info) this in
    let this := op info oper this in
    (Return (cycles info + cycleAdd), this)
  end.

End Part001.

(** ** Facts on the JavaScript operators *)

Lemma wrap32_small z : - 0x80000000 <= z < 0x80000000 -> wrap32 z = z.
Proof. intros H. unfold wrap32. rewrite Z.mod_small; lia. Qed.

Lemma wrap32_mod_256 z : wrap32 z mod 256 = z mod 256.
Proof.
  unfold wrap32. rewrite (Z.mod_eq (z + 0x80000000)) by lia.
  replace (z + 0x80000000
           - 0x100000000 * ((z + 0x80000000) / 0x100000000) - 0x80000000)
    with (z + (- 0x1000000 * ((z + 0x80000000) / 0x100000000)) * 256) by lia.
  apply Z_mod_plus_full.
Qed.

Lemma js_and_0xff (a : jsnum) : a [&] 0xff = ToInt32 a mod 256.
Proof.
  unfold js_and. change (ToInt32 (num 255)) with (Z.ones 8).
  now rewrite Z.land_ones.
Qed.

Lemma js_and_0xff_range (a : jsnum) : 0 <= a [&] 0xff <= 255.
Proof.
  rewrite js_and_0xff.
  pose proof (Z.mod_pos_bound (ToInt32 a) 256 ltac:(lia)). lia.
Qed.

Lemma js_and_byte_l (a : Z) (b : jsnum) :
  0 <= a <= 255 -> 0 <= a [&] b <= 255.
Proof.
  intros Ha. unfold js_and. cbn [ToInt32 num].
  rewrite (wrap32_small a) by lia.
  replace a with (Z.land a (Z.ones 8))
    by (rewrite Z.land_ones by lia; apply Z.mod_small; lia).
  rewrite <- Z.land_assoc, (Z.land_comm (Z.ones 8)), Z.land_assoc.
  rewrite Z.land_ones by lia.
  pose proof (Z.mod_pos_bound (Z.land a (ToInt32 b)) (2 ^ 8) ltac:(lia)). lia.
Qed.

Lemma bytes_all_spec (P : Z -> bool) :
  bytes_all P = true -> forall b, 0 <= b <= 255 -> P b = true.
Proof.
  unfold bytes_all. intros H b Hb.
  apply (proj1 (forallb_forall P _) H).
  apply in_map_iff. exists (Z.to_nat b). split; [lia |].
  apply in_seq. lia.
Qed.

(** Setting bit 8 of a byte adds 0x0100 to it. *)
Lemma js_or_0x0100 (b : Z) : 0 <= b <= 255 -> b [|] 0x0100 = 0x0100 + b.
Proof.
  intros Hb. apply Z.eqb_eq.
  apply (bytes_all_spec (fun b => b [|] 0x0100 =? 0x0100 + b)); [| exact Hb].
  vm_compute. reflexivity.
Qed.

(** ** Facts on the opcode table *)

Ltac pick_disjunct :=
  solve [ reflexivity | left; pick_disjunct | right; pick_disjunct
        | split; pick_disjunct ].

Lemma opCodeMap_entry opc info :
  opCodeMap !! opc = Some info -> entry_shape info.
Proof.
  unfold opCodeMap, initOpCodeMap, addOpCode. cbv zeta. intros H.
  repeat (apply lookup_insert_Some in H;
          destruct H as [[_ <-] | [_ H]];
          [ split; cbn; pick_disjunct | ]).
  rewrite lookup_empty in H. discriminate.
Qed.

(** With the table as built, the operand a handler receives from [runop] is
    always the number 0, and addressing adds no cycle. *)
Lemma address_of_entry this info arg :
  entry_shape info ->
  (if bytes info =? 2 then True else if bytes info =? 3 then True
   else arg = num 0) ->
  address this (addr info) arg = (num 0, 0).
Proof.
  intros [_ [-> | [-> | (-> & H2 & H3)]]] Harg; try reflexivity.
  rewrite H2, H3 in Harg. subst arg. reflexivity.
Qed.

(** ** C1: one step of ADC #$05 *)

(** C1.  The claim: with opcode byte 0x69 followed by 0x05 at PC, A = 0x10 and
    Carry = 0, one step gives A = 0x15, C = 0, Z = 0, N = 0 and returns 2
    cycles.  On the code: the entry of 0x69 is registered with addressing mode
    2 (IMPLIED) and 3 cycles, so the handler receives the operand 0; the step
    leaves A at 0x10 (C = 0, Z = 0, N = 0) and returns 3. *)
Theorem runop_ADC_immediate_ignores_operand (this : CPU) :
  loadOpCode this (PC this) = Some 0x69 ->
  loadOpCode this (PC this [+] 1) = Some 0x05 ->
  A this = 0x10 ->
  flag_C this = 0 ->
  (runop this).1 = Return 3 /\
  A (runop this).2 = 0x10 /\
  flag_C (runop this).2 = 0 /\
  flag_Z (runop this).2 = 0 /\
  flag_N (runop this).2 = 0 /\
  PC (runop this).2 = PC this [+] 2.
Proof.
  intros Hopc Harg HA HC. unfold runop. rewrite Hopc.
  change (opCodeMap_get (Some 0x69))
    with (Some (mkOpCodeInfo ADC 0x69 IMPLIED 2 IMMEDIATE)).
  cbn [bytes addr cycles op]. change (2 =? 2) with true. cbn iota.
  rewrite Harg.
  change (address this IMPLIED (Some 5)) with ((num 0, 0) : jsnum * Z).
  cbv beta iota. unfold ADC. cbn. rewrite HA, HC. cbn. auto 10.
Qed.

Lemma runop_ADC_immediate_ignores_operand_witness :
  let this := set_A 0x10 (new_CPU [0x69; 0x05]) in
  (runop this).1 = Return 3 /\
  A (runop this).2 = 0x10 /\
  flag_C (runop this).2 = 0 /\
  flag_Z (runop this).2 = 0 /\
  flag_N (runop this).2 = 0 /\
  PC (runop this).2 = PC this [+] 2.
Proof.
  intros this.
  apply (runop_ADC_immediate_ignores_operand this); reflexivity.
Defined.

(** The entry that [initOpCodeMap] stores for opcode 0x69. *)
Example opCodeMap_0x69 :
  (fun info => (addr info, bytes info, cycles info)) <$> opCodeMap !! 0x69
  = Some (IMPLIED, 2, 3).
Proof. reflexivity. Qed.

(** ** C2: the flags of ADC *)

(** The part of C2 that holds: for all bytes [a], [b] and carry-in [c], the
    handler stores [(a + b + c) mod 256] and sets Carry exactly when
    [a + b + c > 255]. *)
Lemma ADC_result_and_carry (this : CPU) (b : Z) :
  0 <= A this <= 255 -> 0 <= b <= 255 -> 0 <= flag_C this <= 1 ->
  A (ADC b this).2 = (A this + b + flag_C this) mod 256 /\
  flag_C (ADC b this).2 = (if A this + b + flag_C this >? 255 then 1 else 0).
Proof.
  intros Ha Hb Hc. unfold ADC. cbn -[js_and js_xor].
  rewrite js_and_0xff. cbn [ToInt32 num].
  rewrite wrap32_small by lia. auto.
Qed.

(** The exclusive or of two bytes is a byte. *)
Lemma lxor_byte (a b : Z) :
  0 <= a <= 255 -> 0 <= b <= 255 -> 0 <= Z.lxor a b <= 255.
Proof.
  intros Ha Hb.
  assert (H : bytes_all (fun a => bytes_all (fun b =>
            (0 <=? Z.lxor a b) && (Z.lxor a b <=? 255))) = true)
    by (vm_compute; reflexivity).
  pose proof (bytes_all_spec _ (bytes_all_spec _ H a Ha) b Hb) as Hab.
  cbv beta in Hab. apply andb_true_iff in Hab. lia.
Qed.

(** The Overflow flag of the handler, on bytes. *)
Lemma ADC_V_code (this : CPU) (b : Z) :
  0 <= A this <= 255 -> 0 <= b <= 255 -> 0 <= flag_C this <= 1 ->
  flag_V (ADC b this).2
  = if ADC_V_bits (A this) b (flag_C this) >? 0 then 1 else 0.
Proof.
  intros Ha Hb Hc. unfold ADC, ADC_V_bits. cbn -[js_and js_xor js_gt].
  rewrite js_and_0xff. cbn [ToInt32 js_add num].
  rewrite (wrap32_small (A this + b + flag_C this)) by lia.
  pose proof (Z.mod_pos_bound (A this + b + flag_C this) 256 ltac:(lia)) as Hr.
  pose proof (lxor_byte ((A this + b + flag_C this) mod 256) b ltac:(lia) Hb)
    as Hrb.
  pose proof (lxor_byte (A this) b Ha Hb) as Hab.
  pose proof (js_and_byte_l _ (Z.lxor (A this) b) Hrb) as Hand.
  unfold js_and, num in Hand. cbn [ToInt32] in Hand.
  rewrite (wrap32_small (Z.lxor _ b)) in Hand by lia.
  rewrite (wrap32_small (Z.lxor (A this) b)) in Hand by lia.
  unfold js_and, js_xor, js_gt, num. cbn [ToInt32].
  rewrite (wrap32_small ((A this + b + flag_C this) mod 256)) by lia.
  rewrite (wrap32_small b), (wrap32_small (A this)) by lia.
  rewrite (wrap32_small (Z.lxor _ b)) by lia.
  rewrite (wrap32_small (Z.lxor (A this) b)) by lia.
  rewrite (wrap32_small (Z.land _ _)) by lia.
  reflexivity.
Qed.

Lemma overflow_leaves_V_clear_table :
  bytes_all (fun a => bytes_all (fun b =>
    overflow_leaves_V_clear a b 0 && overflow_leaves_V_clear a b 1)) = true.
Proof. vm_compute. reflexivity. Qed.

(** C2.  The claim: for all bytes [a], [b] and carry-in [c], ADC sets Overflow
    by the two's-complement signed-overflow rule, sets Carry exactly when
    [a + b + c > 255] and stores [(a + b + c) mod 256].  On the code: the
    result and Carry are as claimed, and on every line of the table where the
    signed sum overflows the handler leaves Overflow at 0. *)
Theorem ADC_overflow_flag_misses_overflow (this : CPU) (b : Z) :
  0 <= A this <= 255 ->
  0 <= b <= 255 ->
  0 <= flag_C this <= 1 ->
  signed_overflow (A this) b (flag_C this) = true ->
  flag_V (ADC b this).2 = 0 /\
  A (ADC b this).2 = (A this + b + flag_C this) mod 256 /\
  flag_C (ADC b this).2 = (if A this + b + flag_C this >? 255 then 1 else 0).
Proof.
  intros Ha Hb Hc Hov. split; [| now apply ADC_result_and_carry].
  rewrite ADC_V_code by assumption.
  pose proof (bytes_all_spec _
                (bytes_all_spec _ overflow_leaves_V_clear_table _ Ha) b Hb)
    as Htab.
  cbv beta in Htab. apply andb_true_iff in Htab. destruct Htab as [H0 H1].
  assert (Hline : overflow_leaves_V_clear (A this) b (flag_C this) = true).
  { assert (flag_C this = 0 \/ flag_C this = 1) as [-> | ->] by lia;
      assumption. }
  unfold overflow_leaves_V_clear in Hline. rewrite Hov in Hline.
  cbn [implb] in Hline. apply negb_true_iff in Hline. now rewrite Hline.
Qed.

Lemma ADC_overflow_flag_misses_overflow_witness :
  let this := set_A 0x50 (new_CPU []) in
  flag_V (ADC 0x50 this).2 = 0 /\
  A (ADC 0x50 this).2 = (A this + 0x50 + flag_C this) mod 256 /\
  flag_C (ADC 0x50 this).2
  = (if A this + 0x50 + flag_C this >? 255 then 1 else 0).
Proof.
  intros this.
  apply (ADC_overflow_flag_misses_overflow this 0x50);
    [cbn; lia | lia | cbn; lia | reflexivity].
Defined.

(** Two lines of the table.  0x50 + 0x50: the signed sum 160 overflows, the
    handler stores 0xA0 and leaves Overflow at 0.  0x10 + 0xF0: the signed
    sum 16 - 16 does not overflow, the handler sets Overflow. *)
Example ADC_overflow_flag_lines :
  let this := set_A 0x50 (new_CPU []) in
  let this' := set_A 0x10 (new_CPU []) in
  (signed_overflow 0x50 0x50 0 = true /\
   flag_V (ADC 0x50 this).2 = 0 /\ A (ADC 0x50 this).2 = 0xA0) /\
  (signed_overflow 0x10 0xF0 0 = false /\
   flag_V (ADC 0xF0 this').2 = 1 /\ A (ADC 0xF0 this').2 = 0x00 /\
   flag_C (ADC 0xF0 this').2 = 1).
Proof. vm_compute. repeat split; reflexivity. Qed.

(** ** C3: the conditional branches *)

(** What [branch] assigns to PC: the operand is added as it is when it is
    above 0x7f, and 256 is subtracted when it is not. *)
Lemma branch_PC (this : CPU) (pc oper : Z) :
  PC this = Some pc ->
  PC (branch oper this).2
  = Some (if oper >? 0x7f then pc + oper else pc - 256 + oper).
Proof.
  intros Hpc. unfold branch. cbn -[js_and]. rewrite Hpc. cbn.
  destruct (oper >? 127); reflexivity.
Qed.

(** C3.  The claim: each branch handler changes PC exactly when its named
    condition holds (BNE when Z = 0), and the new PC is the old PC plus the
    operand, less 256 when the operand is 128 or more.  On the code: BNE
    tests the same condition as BEQ, so with Z = 0 it leaves the state as it
    is and with Z = 1 it branches; and a taken branch (here BCC with C = 0)
    subtracts 256 for an operand below 128 and adds the operand unchanged
    from 128 on. *)
Theorem branch_handlers_diverge (this : CPU) (pc oper : Z) :
  PC this = Some pc ->
  0 <= oper <= 255 ->
  (flag_Z this = 0 -> BNE oper this = (0, this)) /\
  (flag_Z this = 1 -> PC (BNE oper this).2 <> PC this) /\
  (flag_C this = 0 ->
     PC (BCC oper this).2
     = Some (if oper <? 128 then pc + oper - 256 else pc + oper)).
Proof.
  intros Hpc Hoper. repeat split.
  - intros HZ. unfold BNE. rewrite HZ. reflexivity.
  - intros HZ. unfold BNE. rewrite HZ. cbn [Z.eqb negb].
    rewrite (branch_PC this pc oper Hpc), Hpc.
    destruct (Z.gtb_spec oper 127); intros [=]; lia.
  - intros HC. unfold BCC. rewrite HC. cbn [Z.eqb].
    rewrite (branch_PC this pc oper Hpc).
    destruct (Z.ltb_spec oper 128), (Z.gtb_spec oper 127); f_equal; lia.
Qed.

Lemma branch_handlers_diverge_witness :
  let this := set_PC 0x8002 (new_CPU []) in
  BNE 0x02 this = (0, this) /\
  PC (BCC 0x02 this).2 = Some 0x7f04.
Proof.
  intros this.
  destruct (branch_handlers_diverge this 0x8002 0x02) as (HBNE & _ & HBCC);
    [reflexivity | lia |].
  split; [apply HBNE | apply HBCC]; reflexivity.
Defined.

(** The scenario of the specification, BCC +2 with Carry = 0 at 0x8000, run
    through [runop]: the operand byte never reaches the handler, PC ends at
    0x7f02 rather than 0x8004, and the step returns 2 cycles. *)
Example runop_BCC_scenario :
  let this :=
    set_PC 0x8000 (new_CPU (replicate (Z.to_nat 0x8000) 0 ++ [0x90; 0x02])) in
  (runop this).1 = Return 2 /\ PC (runop this).2 = Some 0x7f02.
Proof. vm_compute. auto. Qed.

(** ** C4: push *)

(** [push] in terms of the fields it assigns, for any state. *)
Lemma push_fields (value : jsnum) (this : CPU) :
  mem (push value this) = arr_set (mem this) (SP this) value /\
  SP (push value this) = 0x0100 + (SP this - 1) mod 256.
Proof.
  unfold push. cbn -[js_and js_or]. split; [reflexivity |].
  rewrite js_and_0xff. cbn [ToInt32 num].
  rewrite js_or_0x0100
    by (pose proof (Z.mod_pos_bound (wrap32 (SP this - 1)) 256); lia).
  now rewrite wrap32_mod_256.
Qed.

(** C4, counterexample.  From the state the constructor builds (SP = 0), the
    push of 0xAB leaves SP at 0x01FF, not at 0xFF, and the byte is at address
    0x0000 while address 0x0100 still holds 0.  From SP = 0x01FF, the value
    [push] leaves in the register, the byte is at 0x01FF and SP becomes
    0x01FE: read as the value of the register, the claim fails there too. *)
Lemma push_as_claimed_fails :
  ~ push_as_claimed 0xAB (new_CPU []) /\
  ~ push_as_claimed 0xAB (set_SP 0x01FF (new_CPU [])).
Proof.
  split; intros [_ HSP]; vm_compute in HSP; discriminate HSP.
Qed.

Example push_from_new_CPU :
  let this := push 0xAB (new_CPU []) in
  SP this = 0x01FF /\
  arr_get (mem this) 0x0000 = Some 0xAB /\
  arr_get (mem this) 0x0100 = Some 0.
Proof. vm_compute. auto. Qed.

(** C4, amended.  SP holds the address of the stack slot, 0x0100 + s with s a
    byte (the form in which [push] itself leaves it); then [push] writes the
    byte at 0x0100 + s and sets SP to 0x0100 + (s - 1) mod 256: the offset
    wraps within 8 bits (0x00 goes to 0xFF) and the page byte stays 0x01. *)
Theorem push_in_stack_page (value s : Z) (this : CPU) :
  0 <= value <= 255 ->
  0 <= s <= 255 ->
  SP this = 0x0100 + s ->
  mem_64K this ->
  arr_get (mem (push value this)) (0x0100 + s) = Some value /\
  SP (push value this) = 0x0100 + (s - 1) mod 256.
Proof.
  intros Hv Hs HSP Hlen. destruct (push_fields value this) as [-> ->].
  rewrite HSP. split.
  - cbn [arr_set arr_get num]. destruct (Z.leb_spec 0 (256 + s)); [| lia].
    unfold mem_64K in Hlen. unfold ToUint8, num.
    rewrite Z.mod_small by lia.
    apply list_lookup_insert_eq. lia.
  - f_equal. replace (256 + s - 1) with (s - 1 + 1 * 256) by lia.
    apply Z_mod_plus_full.
Qed.

Lemma push_in_stack_page_witness :
  let this := set_SP 0x0100 (new_CPU []) in
  arr_get (mem (push 0xAB this)) (0x0100 + 0x00) = Some 0xAB /\
  SP (push 0xAB this) = 0x0100 + (0x00 - 1) mod 256.
Proof.
  intros this.
  apply (push_in_stack_page 0xAB 0x00 this); [lia | lia | reflexivity |].
  vm_compute. reflexivity.
Defined.

(** [push] writes one cell and no register but SP. *)
Lemma push_frame (value : jsnum) (this : CPU) (a : Z) :
  a <> SP this ->
  arr_get (mem (push value this)) a = arr_get (mem this) a.
Proof.
  intros Ha. destruct (push_fields value this) as [-> _].
  cbn [arr_get arr_set num].
  destruct (Z.leb_spec 0 a), (Z.leb_spec 0 (SP this)); try reflexivity.
  apply list_lookup_insert_ne. lia.
Qed.

(** ** C5: the register-file invariant *)

Lemma is_flag_ite (b : bool) : is_flag (if b then 1 else 0).
Proof. destruct b; [right | left]; reflexivity. Qed.

Lemma is_flag_0 : is_flag 0.
Proof. left; reflexivity. Qed.

Lemma is_flag_1 : is_flag 1.
Proof. right; reflexivity. Qed.

Lemma push_SP_range (value : jsnum) (this : CPU) :
  0x0100 <= SP (push value this) <= 0x01FF.
Proof.
  destruct (push_fields value this) as [_ ->].
  pose proof (Z.mod_pos_bound (SP this - 1) 256). lia.
Qed.

Create HintDb regs.
#[local] Hint Resolve is_flag_ite is_flag_0 is_flag_1 : regs.

Ltac split_inv :=
  unfold reg_inv_code, flags_ok in *;
  cbn -[js_and js_xor js_or js_shl js_shr push];
  repeat match goal with
         | H : _ /\ _ |- _ => destruct H
         | |- _ /\ _ => split
         end;
  try assumption; auto with regs;
  try (apply js_and_0xff_range);
  try (apply js_and_byte_l; split; assumption).

Lemma branch_keeps_inv oper this :
  reg_inv_code this -> reg_inv_code (branch oper this).2.
Proof. unfold branch. split_inv. Qed.

Lemma push_keeps_inv value this :
  reg_inv_code this -> reg_inv_code (push value this).
Proof.
  intros H. pose proof (push_SP_range value this) as HSP.
  revert HSP. unfold push at 2 3.
  unfold reg_inv_code, flags_ok in *.
  cbn -[js_and js_or]. intros HSP. intuition lia.
Qed.

(** Every handler keeps the invariant, whatever operand it is given. *)
Lemma handlers_keep_inv (f : OpCodeFunc) (oper : jsnum) (this : CPU) :
  In f handlers -> reg_inv_code this -> reg_inv_code (f oper this).2.
Proof.
  intros Hin Hinv. cbn in Hin.
  repeat (destruct Hin as [<- | Hin]); [.. | contradiction].
  all: try (unfold BCC, BCS, BEQ, BMI, BNE, BPL, BVC, BVS;
            match goal with
            | |- context [if ?c then branch _ _ else _] =>
                destruct c; [now apply branch_keeps_inv | exact Hinv]
            end).
  all: try (unfold ADC, AND, ASL, BIT, CLC, CLD, CLI, CLV, CMP, CPX, CPY;
            solve [split_inv]).
  (* BRK *)
  unfold BRK. cbn [snd].
  pose proof (push_keeps_inv (packSR (push (PC this [+] 2) this)) _
                (push_keeps_inv (PC this [+] 2) this Hinv)) as H.
  revert H. generalize (push (packSR (push (PC this [+] 2) this))
                          (push (PC this [+] 2) this)).
  intros c H. split_inv.
Qed.

(** The result of a completed step: the handler of the entry, run on the
    operand 0 after PC has been advanced by the stored length. *)
Lemma runop_completed (this this' : CPU) (c : Z) :
  runop this = (Return c, this') ->
  exists opc info,
    loadOpCode this (PC this) = Some opc /\
    opCodeMap !! opc = Some info /\
    this' = (op info (num 0) (set_PC (PC this [+] bytes info) this)).2 /\
    c = cycles info
        + js_or_zero
            (op info (num 0) (set_PC (PC this [+] bytes info) this)).1.
Proof.
  unfold runop. destruct (loadOpCode this (PC this)) as [opc |] eqn:Hopc;
    [| discriminate].
  cbn [opCodeMap_get]. destruct (opCodeMap !! opc) as [info |] eqn:Hinfo;
    [| discriminate].
  rewrite (address_of_entry this info) by
    (first [ exact (opCodeMap_entry _ _ Hinfo)
           | destruct (bytes info =? 2), (bytes info =? 3); auto ]).
  destruct (op info 0 (set_PC (PC this [+] bytes info) this)) as [ret s] eqn:Hop.
  intros [= <- <-]. exists opc, info. rewrite Hop. cbn [fst snd].
  repeat split; auto. lia.
Qed.

Lemma in_range_spec lo hi x : in_range lo hi x = true <-> lo <= x <= hi.
Proof. unfold in_range. rewrite andb_true_iff. lia. Qed.

Lemma is_flagb_spec f : is_flagb f = true <-> is_flag f.
Proof. unfold is_flagb, is_flag. rewrite orb_true_iff. lia. Qed.

Lemma reg_invb_spec this : reg_invb this = true <-> reg_inv this.
Proof.
  unfold reg_invb, reg_inv, flags_ok.
  rewrite !andb_true_iff, !in_range_spec, !is_flagb_spec.
  destruct (PC this) as [pc |].
  - rewrite in_range_spec. split.
    + intros H. repeat split; try tauto. exists pc. tauto.
    + intros (HA & HX & HY & HSP & (pc' & [= <-] & Hpc) & HF). tauto.
  - split; [intros H; exfalso; intuition discriminate |].
    intros (_ & _ & _ & _ & (pc' & [=] & _) & _).
Qed.

(** C5, counterexample.  Three runs.  A new CPU has A = 0x01FF.  After AND
    (opcode 0x29) the registers and flags are in the claimed ranges, and the
    step of BRK (opcode 0x00) that follows leaves SP at 0x01FE.  From a state
    in the claimed ranges with PC = 0xFFFF, the step of CLC (opcode 0x18)
    leaves PC at 0x10001. *)
Lemma register_file_invariant_fails :
  let this0 := new_CPU [0x29; 0x00; 0x00] in
  let this1 := (runop this0).2 in
  let this2 := (runop this1).2 in
  let that0 :=
    set_PC 0xFFFF (set_A 0 (new_CPU (replicate (Z.to_nat 0xFFFF) 0 ++ [0x18])))
  in
  let that1 := (runop that0).2 in
  (A this0 = 0x01FF /\ ~ reg_inv this0) /\
  ((runop this0).1 = Return 3 /\ reg_inv this1 /\
   (runop this1).1 = Return 2 /\ SP this2 = 0x01FE /\ ~ reg_inv this2) /\
  (reg_inv that0 /\ (runop that0).1 = Return 2 /\
   PC that1 = Some 0x10001 /\ ~ reg_inv that1).
Proof.
  intros this0 this1 this2 that0 that1.
  assert (Hno : forall this, reg_invb this = false -> ~ reg_inv this).
  { intros this Hb H. apply reg_invb_spec in H. congruence. }
  repeat split;
    first [ apply reg_invb_spec; vm_compute; reflexivity
          | apply Hno; vm_compute; reflexivity
          | vm_compute; reflexivity ].
Qed.

(** C5, amended.  A completed step keeps A, X and Y in [0,255] and every flag
    at 0 or 1, and leaves SP in [0,0x01FF]: a byte, with the stack-page bit
    0x0100 above it once [push] has run.  PC is advanced without a mask and
    is not part of the invariant. *)
Theorem runop_keeps_reg_inv_code (this this' : CPU) (c : Z) :
  reg_inv_code this ->
  runop this = (Return c, this') ->
  reg_inv_code this'.
Proof.
  intros Hinv Hrun.
  destruct (runop_completed _ _ _ Hrun) as (opc & info & _ & Hinfo & -> & _).
  apply handlers_keep_inv.
  - exact (proj1 (opCodeMap_entry _ _ Hinfo)).
  - revert Hinv. unfold set_PC. split_inv.
Qed.

Lemma runop_keeps_reg_inv_code_witness :
  let this := set_A 0 (new_CPU [0x00]) in
  reg_inv_code (runop this).2.
Proof.
  intros this.
  apply (runop_keeps_reg_inv_code this (runop this).2 2).
  - unfold reg_inv_code, flags_ok, is_flag. cbn. lia.
  - transitivity ((runop this).1, (runop this).2);
      [apply surjective_pairing | f_equal; vm_compute; reflexivity].
Defined.

(** What the constructor leaves in the register file: every register and
    flag is 0 except A, which is 0x01FF. *)
Lemma new_CPU_registers (ops : Uint8Array) :
  let this := new_CPU ops in
  A this = 0x01FF /\ X this = 0 /\ Y this = 0 /\ SP this = 0 /\
  PC this = Some 0 /\ flags_ok this /\ ~ reg_inv this.
Proof.
  cbn. unfold flags_ok, is_flag. cbn. repeat split; auto.
  intros (HA & _). cbn in HA. lia.
Qed.

(** PC is advanced without a mask: CLC at 0xFFFF, whose entry has the stored
    length 2, leaves PC at 0x10001. *)
Example runop_PC_not_masked :
  let this :=
    set_PC 0xFFFF (new_CPU (replicate (Z.to_nat 0xFFFF) 0 ++ [0x18])) in
  (runop this).1 = Return 2 /\ PC (runop this).2 = Some 0x10001.
Proof. vm_compute. split; reflexivity. Qed.

(** ** C6: BRK *)

Lemma packSR_push (value : jsnum) (this : CPU) :
  packSR (push value this) = packSR this.
Proof. unfold packSR, push. reflexivity. Qed.

Lemma packSR_set_PC (pc : jsnum) (this : CPU) :
  packSR (set_PC pc this) = packSR this.
Proof. unfold packSR, set_PC. reflexivity. Qed.

(** C6.  The claim: opcode 0x00 pushes the 16-bit value PC + 2 (high byte,
    then low byte), pushes the status byte with bits 4 and 5 set, sets
    Interrupt-disable and loads PC from the word at 0xFFFE-0xFFFF.  On the
    code, for a step that starts with PC = pc: PC ends at pc + 7 (the stored
    length of the entry) and is not loaded from memory; two cells are
    written, the first with the low byte of pc + 9 and the second with the
    flags as they are packed, bits 4 and 5 being B4 and B5 unchanged;
    Interrupt-disable is set and the step returns 2. *)
Theorem runop_BRK (this : CPU) (pc : Z) :
  loadOpCode this (PC this) = Some 0x00 ->
  PC this = Some pc ->
  (runop this).1 = Return 2 /\
  PC (runop this).2 = Some (pc + 7) /\
  mem (runop this).2
  = arr_set (arr_set (mem this) (SP this) (pc + 9))
      (0x0100 + (SP this - 1) mod 256) (packSR this) /\
  SP (runop this).2 = 0x0100 + (0x0100 + (SP this - 1) mod 256 - 1) mod 256 /\
  flag_I (runop this).2 = 1 /\
  flag_B4 (runop this).2 = flag_B4 this /\
  flag_B5 (runop this).2 = flag_B5 this.
Proof.
  intros Hopc Hpc. unfold runop. rewrite Hopc.
  change (opCodeMap_get (Some 0x00))
    with (Some (mkOpCodeInfo BRK 0x00 ACCUMULATOR 7 IMPLIED)).
  cbn [bytes addr cycles op]. change (7 =? 2) with false.
  change (7 =? 3) with false. cbv iota.
  change (address this ACCUMULATOR 0) with ((num 0, 0) : jsnum * Z).
  cbv beta iota. rewrite Hpc. unfold BRK.
  set (this1 := set_PC (Some pc [+] 7) this).
  set (this2 := push (PC this1 [+] 2) this1).
  set (this3 := push (packSR this2) this2).
  cbn [fst snd].
  destruct (push_fields (packSR this2) this2) as [Hmem3 HSP3].
  destruct (push_fields (PC this1 [+] 2) this1) as [Hmem2 HSP2].
  fold this2 in Hmem2, HSP2. fold this3 in Hmem3, HSP3.
  change (mem (set_I 1 this3)) with (mem this3).
  change (SP (set_I 1 this3)) with (SP this3).
  rewrite Hmem3, HSP3, Hmem2, HSP2.
  change (SP this1) with (SP this). change (mem this1) with (mem this).
  replace (PC this1 [+] 2) with (num (pc + 9))
    by (cbn; unfold num; f_equal; lia).
  unfold this2. rewrite packSR_push. unfold this1. rewrite packSR_set_PC.
  repeat split; reflexivity.
Qed.

Lemma runop_BRK_witness :
  (runop BRK_scenario).1 = Return 2 /\
  PC (runop BRK_scenario).2 = Some (0 + 7) /\
  mem (runop BRK_scenario).2
  = arr_set (arr_set (mem BRK_scenario) (SP BRK_scenario) (0 + 9))
      (0x0100 + (SP BRK_scenario - 1) mod 256) (packSR BRK_scenario) /\
  SP (runop BRK_scenario).2
  = 0x0100 + (0x0100 + (SP BRK_scenario - 1) mod 256 - 1) mod 256 /\
  flag_I (runop BRK_scenario).2 = 1 /\
  flag_B4 (runop BRK_scenario).2 = flag_B4 BRK_scenario /\
  flag_B5 (runop BRK_scenario).2 = flag_B5 BRK_scenario.
Proof.
  apply (runop_BRK BRK_scenario 0); reflexivity.
Defined.

(** The same step in numbers: the claim has 0x00, 0x02 and a status byte with
    bits 4 and 5 set (0x30 or above) at 0x01FF, 0x01FE and 0x01FD, SP at
    0x01FC and PC at 0x1234. *)
Example runop_BRK_scenario :
  let this := (runop BRK_scenario).2 in
  PC this = Some 7 /\
  SP this = 0x01FD /\
  arr_get (mem this) 0x01FF = Some 0x09 /\
  arr_get (mem this) 0x01FE = Some 0x00 /\
  arr_get (mem this) 0x01FD = Some 0x00 /\
  arr_get (mem this) 0xFFFE = Some 0x34 /\
  arr_get (mem this) 0xFFFF = Some 0x12 /\
  flag_I this = 1.
Proof. vm_compute. repeat split; reflexivity. Qed.

(** ** C7: indirect addressing *)

(** C7.  The claim: the effective address is (high << 8) | low, and a pointer
    whose low byte is 0xFF takes its high byte from the start of its own
    page.  On the code: the high byte is read at [(arg + 1) mod 256], in page
    zero whatever the page of the pointer, and the address is the high byte
    shifted left by [8 + low] (the count taken modulo 32, the result reduced
    to 32 bits). *)
Theorem address_INDIRECT_code (this : CPU) (arg ll hh : Z) :
  arr_get (mem this) arg = Some ll ->
  arr_get (mem this) ((arg + 1) mod 256) = Some hh ->
  0 <= ll <= 255 ->
  0 <= hh <= 255 ->
  address this INDIRECT arg
  = (arr_get (mem this) (wrap32 (Z.shiftl hh ((8 + ll) mod 32))), 0).
Proof.
  intros Hll Hhh Bll Bhh. unfold address.
  change (INDIRECT =? ABSOLUTE) with false.
  change (INDIRECT =? ABSOLUTE_X) with false.
  change (INDIRECT =? ABSOLUTE_Y) with false.
  change (INDIRECT =? IMMEDIATE) with false.
  change (INDIRECT =? INDIRECT) with true. cbv iota zeta.
  rewrite js_and_0xff. cbn [js_add num ToInt32].
  rewrite wrap32_mod_256. unfold num in Hll, Hhh |- *. rewrite Hll, Hhh.
  unfold js_shl. cbn [js_add ToInt32].
  rewrite (wrap32_small hh), (wrap32_small (8 + ll)) by lia. reflexivity.
Qed.

Lemma address_INDIRECT_code_witness :
  address INDIRECT_scenario INDIRECT 0x02FF
  = (arr_get (mem INDIRECT_scenario)
       (wrap32 (Z.shiftl 0x03 ((8 + 0x01) mod 32))), 0).
Proof.
  apply (address_INDIRECT_code INDIRECT_scenario 0x02FF 0x01 0x03);
    [reflexivity | reflexivity | lia | lia].
Defined.

Example address_INDIRECT_scenario :
  address INDIRECT_scenario INDIRECT 0x02FF = (Some 0xBB, 0) /\
  arr_get (mem INDIRECT_scenario) (Z.lor (Z.shiftl 0x12 8) 0x01) = Some 0xAA.
Proof. vm_compute. split; reflexivity. Qed.

(** ** C8: absolute-X addressing *)

(** C8.  The claim: the operand of absolute-X is the byte at arg + X and the
    extra cycle is 1 exactly when arg and arg + X are in different pages.  On
    the code: the case has no [break] and runs on into the case of
    absolute-Y, so the operand is the byte at arg + Y, and the extra cycle is
    1 when arg + X or arg + Y leaves the page of arg. *)
Theorem address_ABSOLUTE_X_falls_through (this : CPU) (arg : Z) :
  address this ABSOLUTE_X arg
  = (arr_get (mem this) (arg + Y this),
     if negb (page arg =? page (arg + X this))
        || negb (page arg =? page (arg + Y this))
     then 1 else 0).
Proof.
  unfold address, address_ABSOLUTE_Y, page.
  change (ABSOLUTE_X =? ABSOLUTE) with false.
  change (ABSOLUTE_X =? ABSOLUTE_X) with true. cbv iota zeta.
  unfold num. cbn [js_add].
  destruct (_ =? (Some (arg + X this) [&] _)),
    (_ =? (Some (arg + Y this) [&] _)); reflexivity.
Qed.

(** Two inputs.  With X = 1 and Y = 2 the operand at base 0x0200 is the byte
    at 0x0202, not the one at 0x0201; with X = 0 and Y = 1 the base 0x02FF
    costs an extra cycle although arg + X stays in the page. *)
Example address_ABSOLUTE_X_scenarios :
  let this := set_Y 2 (set_X 1 (new_CPU [])) in
  let this :=
    set_mem (arr_set (arr_set (mem this) 0x0201 0xAA) 0x0202 0xBB) this in
  address this ABSOLUTE_X 0x0200 = (Some 0xBB, 0) /\
  address (set_Y 1 (new_CPU [])) ABSOLUTE_X 0x02FF = (Some 0, 1).
Proof. vm_compute. split; reflexivity. Qed.

(** ** C9: an opcode byte without an entry *)

(** C9.  When the byte at PC has no entry in the opcode table, the step
    throws (the TypeError of destructuring [undefined]) and the object is as
    it was before the step: no register, flag or memory cell has changed. *)
Theorem runop_unknown_opcode_throws (this : CPU) (opc : Z) :
  loadOpCode this (PC this) = Some opc ->
  opCodeMap !! opc = None ->
  runop this = (Throw TypeError, this).
Proof.
  intros Hopc Hnone. unfold runop. rewrite Hopc.
  cbn [opCodeMap_get]. rewrite Hnone. reflexivity.
Qed.

Lemma runop_unknown_opcode_throws_witness :
  runop (new_CPU [0xFF]) = (Throw TypeError, new_CPU [0xFF]).
Proof.
  apply (runop_unknown_opcode_throws (new_CPU [0xFF]) 0xFF); reflexivity.
Defined.

(** The table has 50 entries, so 206 of the 256 opcode bytes have none. *)
Example opCodeMap_size : size opCodeMap = 50%nat.
Proof. vm_compute. reflexivity. Qed.

(** Whatever makes a step throw, the object is unchanged: the only throwing
    point of [runop] comes before its first assignment. *)
Lemma runop_throw_unchanged (this this' : CPU) (e : Error) :
  runop this = (Throw e, this') -> this' = this.
Proof.
  unfold runop. destruct (opCodeMap_get _) as [info |].
  - destruct (address _ _ _) as [oper cycleAdd1].
    destruct (op info oper _) as [ret s]. discriminate.
  - intros [= _ <-]. reflexivity.
Qed.

(** ** C10: the instruction stream *)

Lemma handlers_keep_ops (f : OpCodeFunc) (oper : jsnum) (this : CPU) :
  In f handlers -> ops (f oper this).2 = ops this.
Proof.
  intros Hin. cbn in Hin.
  repeat (destruct Hin as [<- | Hin]); [.. | contradiction].
  all: try reflexivity.
  all: unfold BCC, BCS, BEQ, BMI, BNE, BPL, BVC, BVS;
    match goal with
    | |- context [if ?c then branch _ _ else _] => destruct c; reflexivity
    end.
Qed.

(** C10.  A step never modifies the array [ops] the constructor received:
    every write of a step goes to a register, a flag or [mem]. *)
Theorem runop_keeps_ops (this : CPU) : ops (runop this).2 = ops this.
Proof.
  unfold runop. destruct (loadOpCode this (PC this)) as [opc |];
    [| reflexivity].
  cbn [opCodeMap_get]. destruct (opCodeMap !! opc) as [info |] eqn:Hinfo;
    [| reflexivity].
  destruct (address _ _ _) as [oper cycleAdd1].
  destruct (op info oper _) as [ret s] eqn:Hop. cbn [snd].
  change s with (ret, s).2. rewrite <- Hop.
  rewrite handlers_keep_ops by exact (proj1 (opCodeMap_entry _ _ Hinfo)).
  reflexivity.
Qed.

(** The stack writes of a step land in [mem]: BRK on a machine with a
    one-byte program changes [mem] and leaves [ops] as it was. *)
Example runop_BRK_keeps_ops :
  ops (runop BRK_scenario).2 = [0x00] /\
  arr_get (mem (runop BRK_scenario).2) 0x01FF = Some 0x09.
Proof. vm_compute. split; reflexivity. Qed.

(** * Further properties of the code *)

(** ** Bit tests on bytes *)

Lemma js_and_bytes (a b : Z) :
  0 <= a <= 255 -> 0 <= b <= 255 -> a [&] b = Z.land a b.
Proof.
  intros Ha Hb. unfold js_and, num. cbn [ToInt32].
  now rewrite !wrap32_small by lia.
Qed.

Lemma sign_test (r : Z) :
  0 <= r <= 255 -> (r [&] 0x80) [>] 0 = (128 <=? r).
Proof.
  intros Hr. apply eqb_true_iff.
  apply (bytes_all_spec
           (fun r => eqb ((r [&] 0x80) [>] 0) (128 <=? r))); [| exact Hr].
  vm_compute. reflexivity.
Qed.

Lemma land_not_1 (y m : Z) : Z.odd m = false -> Z.land y m <> 1.
Proof.
  intros Hm H.
  assert (Hbit : Z.testbit (Z.land y m) 0 = true) by (rewrite H; reflexivity).
  rewrite Z.land_spec, (Z.bit0_odd m), Hm, andb_false_r in Hbit.
  discriminate.
Qed.

(** The page bits of an address: [x & 0xff00] takes bits 8 to 15. *)
Lemma land_0xff00 (x : Z) : Z.land x 0xff00 = x mod 65536 - x mod 256.
Proof.
  assert (H : Z.land x (Z.ones 16)
              = Z.land x 0xff00 + Z.land x (Z.ones 8)).
  { change (Z.ones 16) with (Z.lor 0xff00 (Z.ones 8)).
    rewrite Z.land_lor_distr_r, <- Z.lxor_lor, <- Z.add_nocarry_lxor;
      try reflexivity.
    all: rewrite (Z.land_comm x 0xff00), <- Z.land_assoc,
           (Z.land_assoc x), (Z.land_diag x), (Z.land_comm x),
           Z.land_assoc; change (Z.land 0xff00 (Z.ones 8)) with 0;
           apply Z.land_0_l. }
  rewrite !Z.land_ones in H by lia.
  change (2 ^ 16) with 65536 in H. change (2 ^ 8) with 256 in H. lia.
Qed.

Lemma page_value (x : Z) :
  - 0x80000000 <= x < 0x80000000 -> page x = x mod 65536 - x mod 256.
Proof.
  intros Hx. unfold page, js_and, num. cbn [ToInt32].
  rewrite (wrap32_small x) by lia. change (wrap32 65280) with 0xff00.
  apply land_0xff00.
Qed.

(** ** The arithmetic and logic handlers on bytes *)

(** X1.  AND on bytes: the accumulator becomes the bitwise conjunction of the
    accumulator and the operand, N is its bit 7 and Z tells whether it is 0;
    nothing else changes (Carry and Overflow included) and the handler
    returns 0. *)
Theorem AND_bytes (this : CPU) (b : Z) :
  0 <= A this <= 255 ->
  0 <= b <= 255 ->
  AND b this
  = (0, set_A (Z.land (A this) b)
          (set_Z (if Z.land (A this) b =? 0 then 1 else 0)
             (set_N (if 128 <=? Z.land (A this) b then 1 else 0) this))).
Proof.
  intros Ha Hb. unfold AND.
  pose proof (js_and_byte_l (A this) b Ha) as Hr.
  rewrite (js_and_bytes (A this) b Ha Hb) in Hr |- *.
  rewrite (sign_test _ Hr). reflexivity.
Qed.

Lemma AND_bytes_witness :
  let this := set_A 0xF0 (new_CPU []) in
  AND 0x3C this
  = (0, set_A (Z.land (A this) 0x3C)
          (set_Z (if Z.land (A this) 0x3C =? 0 then 1 else 0)
             (set_N (if 128 <=? Z.land (A this) 0x3C then 1 else 0) this))).
Proof.
  intros this. apply (AND_bytes this 0x3C); [cbn; lia | lia].
Defined.

Lemma js_shl_1 (a : Z) : 0 <= a <= 255 -> a [<<] 1 = 2 * a.
Proof.
  intros Ha. unfold js_shl, num. cbn [ToInt32].
  change (wrap32 1 mod 32) with 1.
  rewrite (wrap32_small a) by lia. rewrite Z.shiftl_mul_pow2 by lia.
  rewrite wrap32_small; lia.
Qed.

(** X2.  ASL on a byte: whatever the operand, the accumulator is shifted left
    by one bit within 8 bits, Carry receives its old bit 7, N and Z follow
    the result, and nothing else changes. *)
Theorem ASL_bytes (this : CPU) (oper : jsnum) :
  0 <= A this <= 255 ->
  ASL oper this
  = (0, set_A ((2 * A this) mod 256)
          (set_Z (if (2 * A this) mod 256 =? 0 then 1 else 0)
             (set_N (if 128 <=? (2 * A this) mod 256 then 1 else 0)
                (set_C (if 128 <=? A this then 1 else 0) this)))).
Proof.
  intros Ha. unfold ASL. rewrite (js_shl_1 _ Ha).
  rewrite js_and_0xff.
  change (ToInt32 (num (2 * A this))) with (wrap32 (2 * A this)).
  change (num (2 * A this) [>] num 0xff) with (2 * A this >? 255).
  rewrite (wrap32_small (2 * A this)) by lia.
  pose proof (Z.mod_pos_bound (2 * A this) 256 ltac:(lia)) as Hr.
  rewrite (sign_test ((2 * A this) mod 256)) by lia.
  replace (2 * A this >? 255) with (128 <=? A this)
    by (destruct (Z.leb_spec 128 (A this)), (Z.gtb_spec (2 * A this) 255);
        (reflexivity || lia)).
  reflexivity.
Qed.

Lemma ASL_bytes_witness :
  let this := set_A 0x81 (new_CPU []) in
  ASL 0x55 this
  = (0, set_A ((2 * A this) mod 256)
          (set_Z (if (2 * A this) mod 256 =? 0 then 1 else 0)
             (set_N (if 128 <=? (2 * A this) mod 256 then 1 else 0)
                (set_C (if 128 <=? A this then 1 else 0) this)))).
Proof.
  intros this. apply (ASL_bytes this 0x55). cbn. lia.
Defined.

(** The three tests of a compare, on bytes. *)
Lemma compare_tests (reg b : Z) :
  0 <= reg <= 255 -> 0 <= b <= 255 ->
  (reg [-] b) [>=] 0 = (b <=? reg) /\
  ((((reg [-] b) [>>] 7) [&] 1) =? 1) = (128 <=? (reg - b) mod 256) /\
  (((reg [-] b) [&] 0xff) =? 0) = (reg =? b).
Proof.
  intros Hreg Hb. unfold num. cbn [js_sub]. repeat split.
  - cbn [js_ge]. destruct (Z.geb_spec (reg - b) 0), (Z.leb_spec b reg);
      (reflexivity || lia).
  - unfold js_shr, js_and. cbn [ToInt32].
    change (wrap32 7 mod 32) with 7. change (wrap32 1) with (Z.ones 1).
    rewrite (wrap32_small (reg - b)) by lia. rewrite Z.shiftr_div_pow2 by lia.
    change (2 ^ 7) with 128.
    rewrite (wrap32_small ((reg - b) / 128))
      by (Z.div_mod_to_equations; lia).
    rewrite Z.land_ones by lia. change (2 ^ 1) with 2.
    destruct (Z.eqb_spec (((reg - b) / 128) mod 2) 1),
      (Z.leb_spec 128 ((reg - b) mod 256)); try reflexivity;
      Z.div_mod_to_equations; lia.
  - rewrite js_and_0xff. cbn [ToInt32]. rewrite (wrap32_small (reg - b)) by lia.
    destruct (Z.eqb_spec ((reg - b) mod 256) 0), (Z.eqb_spec reg b);
      try reflexivity; Z.div_mod_to_equations; lia.
Qed.

(** X3.  The compares on bytes: CMP, CPX and CPY set Carry exactly when the
    register is at least the operand, Z exactly when the two are equal and N
    to bit 7 of their difference within 8 bits; no register and nothing else
    changes. *)
Theorem compare_bytes (this : CPU) (b : Z) :
  0 <= A this <= 255 -> 0 <= X this <= 255 -> 0 <= Y this <= 255 ->
  0 <= b <= 255 ->
  let compared reg :=
    (0, set_Z (if reg =? b then 1 else 0)
          (set_N (if 128 <=? (reg - b) mod 256 then 1 else 0)
             (set_C (if b <=? reg then 1 else 0) this))) in
  CMP b this = compared (A this) /\
  CPX b this = compared (X this) /\
  CPY b this = compared (Y this).
Proof.
  intros HA HX HY Hb compared. unfold compared, CMP, CPX, CPY.
  destruct (compare_tests (A this) b HA Hb) as (-> & -> & ->).
  destruct (compare_tests (X this) b HX Hb) as (-> & -> & ->).
  destruct (compare_tests (Y this) b HY Hb) as (-> & -> & ->).
  repeat split.
Qed.

Lemma compare_bytes_witness :
  let this := set_A 0x10 (new_CPU []) in
  let compared reg :=
    (0, set_Z (if reg =? 0x20 then 1 else 0)
          (set_N (if 128 <=? (reg - 0x20) mod 256 then 1 else 0)
             (set_C (if 0x20 <=? reg then 1 else 0) this))) in
  CMP 0x20 this = compared (A this) /\
  CPX 0x20 this = compared (X this) /\
  CPY 0x20 this = compared (Y this).
Proof.
  intros this.
  apply (compare_bytes this 0x20); cbn; lia.
Defined.

(** X4.  BIT, for every state and operand: Z tells whether the accumulator
    and the operand have no common bit, and N and V are cleared whatever bits
    6 and 7 are (the masked values are compared with 1); the accumulator and
    everything else are unchanged. *)
Theorem BIT_flags (this : CPU) (oper : jsnum) :
  BIT oper this
  = (0, set_V 0 (set_N 0
          (set_Z (if (A this [&] oper) =? 0 then 1 else 0) this))).
Proof.
  unfold BIT.
  assert (H : forall (r : Z) (m : Z),
            Z.odd (wrap32 m) = false -> ((r [&] m) =? 1) = false).
  { intros r m Hm. apply Z.eqb_neq. unfold js_and. now apply land_not_1. }
  rewrite (H _ 0x80), (H _ 0x40) by reflexivity. reflexivity.
Qed.

(** X5.  ADC on bytes: N is bit 7 of the stored result and Z tells whether it
    is 0; the index registers, SP, PC, the flags B4, B5, D and I and the
    memory are unchanged, and the handler returns 0. *)
Theorem ADC_N_Z_and_frame (this : CPU) (b : Z) :
  0 <= A this <= 255 ->
  0 <= b <= 255 ->
  0 <= flag_C this <= 1 ->
  let result := (A this + b + flag_C this) mod 256 in
  let this' := (ADC b this).2 in
  (ADC b this).1 = 0 /\
  flag_N this' = (if 128 <=? result then 1 else 0) /\
  flag_Z this' = (if result =? 0 then 1 else 0) /\
  set_A (A this) (set_N (flag_N this) (set_Z (flag_Z this)
    (set_V (flag_V this) (set_C (flag_C this) this'))))
  = this.
Proof.
  intros Ha Hb Hc result this'. unfold this', ADC.
  cbn -[js_and js_xor js_gt].
  rewrite js_and_0xff. cbn [ToInt32 js_add num].
  rewrite (wrap32_small (A this + b + flag_C this)) by lia.
  fold result.
  pose proof (Z.mod_pos_bound (A this + b + flag_C this) 256 ltac:(lia)) as Hr.
  fold result in Hr.
  change (Some result) with (num result). change (Some 128) with (num 128).
  change (Some 0) with (num 0).
  rewrite (sign_test result) by lia.
  repeat split. destruct this; reflexivity.
Qed.

Lemma ADC_N_Z_and_frame_witness :
  let this := set_A 0x7F (new_CPU []) in
  let result := (A this + 0x01 + flag_C this) mod 256 in
  let this' := (ADC 0x01 this).2 in
  (ADC 0x01 this).1 = 0 /\
  flag_N this' = (if 128 <=? result then 1 else 0) /\
  flag_Z this' = (if result =? 0 then 1 else 0) /\
  set_A (A this) (set_N (flag_N this) (set_Z (flag_Z this)
    (set_V (flag_V this) (set_C (flag_C this) this'))))
  = this.
Proof.
  intros this. apply (ADC_N_Z_and_frame this 0x01); cbn; lia.
Defined.

(** ** The status byte *)

Lemma pack_value (c z i d b4 b5 v n : Z) :
  is_flag c -> is_flag z -> is_flag i -> is_flag d ->
  is_flag b4 -> is_flag b5 -> is_flag v -> is_flag n ->
  (c [|] z [<<] 1 [|] i [<<] 2 [|] d [<<] 3 [|] b4 [<<] 4 [|] b5 [<<] 5
     [|] v [<<] 6 [|] n [<<] 7)
  = c + 2 * z + 4 * i + 8 * d + 16 * b4 + 32 * b5 + 64 * v + 128 * n.
Proof.
  intros [-> | ->] [-> | ->] [-> | ->] [-> | ->]
         [-> | ->] [-> | ->] [-> | ->] [-> | ->]; reflexivity.
Qed.

Lemma packSR_value (this : CPU) :
  flags_ok this ->
  packSR this
  = flag_C this + 2 * flag_Z this + 4 * flag_I this + 8 * flag_D this
    + 16 * flag_B4 this + 32 * flag_B5 this + 64 * flag_V this
    + 128 * flag_N this.
Proof.
  intros (HN & HV & HB5 & HB4 & HD & HI & HZ & HC).
  unfold packSR. now apply pack_value.
Qed.

(** X6.  The status byte: with every flag 0 or 1, [packSR] is a byte whose
    bits 0 to 7 are C, Z, I, D, B4, B5, V and N, so each flag is read back
    from its bit and two states with the same status byte have the same
    flags. *)
Theorem packSR_layout (this : CPU) :
  flags_ok this ->
  0 <= packSR this <= 255 /\
  flag_C this = Z.b2z (Z.testbit (packSR this) 0) /\
  flag_Z this = Z.b2z (Z.testbit (packSR this) 1) /\
  flag_I this = Z.b2z (Z.testbit (packSR this) 2) /\
  flag_D this = Z.b2z (Z.testbit (packSR this) 3) /\
  flag_B4 this = Z.b2z (Z.testbit (packSR this) 4) /\
  flag_B5 this = Z.b2z (Z.testbit (packSR this) 5) /\
  flag_V this = Z.b2z (Z.testbit (packSR this) 6) /\
  flag_N this = Z.b2z (Z.testbit (packSR this) 7).
Proof.
  intros Hflags. rewrite (packSR_value this Hflags).
  destruct Hflags as (HN & HV & HB5 & HB4 & HD & HI & HZ & HC).
  destruct HN as [-> | ->], HV as [-> | ->], HB5 as [-> | ->],
    HB4 as [-> | ->], HD as [-> | ->], HI as [-> | ->],
    HZ as [-> | ->], HC as [-> | ->];
    cbn; repeat split; (reflexivity || lia).
Qed.

Lemma packSR_layout_witness :
  let this := set_C 1 (set_V 1 (new_CPU [])) in
  0 <= packSR this <= 255 /\
  flag_C this = Z.b2z (Z.testbit (packSR this) 0) /\
  flag_Z this = Z.b2z (Z.testbit (packSR this) 1) /\
  flag_I this = Z.b2z (Z.testbit (packSR this) 2) /\
  flag_D this = Z.b2z (Z.testbit (packSR this) 3) /\
  flag_B4 this = Z.b2z (Z.testbit (packSR this) 4) /\
  flag_B5 this = Z.b2z (Z.testbit (packSR this) 5) /\
  flag_V this = Z.b2z (Z.testbit (packSR this) 6) /\
  flag_N this = Z.b2z (Z.testbit (packSR this) 7).
Proof.
  intros this. apply (packSR_layout this).
  unfold flags_ok, is_flag. cbn. lia.
Defined.

(** ** The branches *)

(** X7.  Each of the eight branch handlers either returns 0 and leaves the
    object as it is, or returns 1 or 2 and changes PC alone: no branch
    touches a flag, another register or the memory. *)
Theorem branch_handlers_frame (f : OpCodeFunc) (oper : jsnum) (this : CPU) :
  In f branch_handlers ->
  ((f oper this).1 = 0 /\ (f oper this).2 = this) \/
  (((f oper this).1 = 1 \/ (f oper this).1 = 2) /\
   (f oper this).2 = set_PC (PC (f oper this).2) this).
Proof.
  intros Hin. cbn in Hin.
  repeat (destruct Hin as [<- | Hin]); [.. | contradiction].
  all: unfold BCC, BCS, BEQ, BMI, BNE, BPL, BVC, BVS;
    match goal with
    | |- context [if ?c then branch _ _ else _] => destruct c
    end; [right | left; split; reflexivity].
  all: unfold branch; cbn [fst snd]; split;
    [ match goal with |- context [if ?c then 1 else 2] => destruct c end;
      [left | right]; reflexivity
    | destruct this; reflexivity ].
Qed.

Lemma branch_handlers_frame_witness :
  let this := new_CPU [] in
  ((BPL 0x10 this).1 = 0 /\ (BPL 0x10 this).2 = this) \/
  (((BPL 0x10 this).1 = 1 \/ (BPL 0x10 this).1 = 2) /\
   (BPL 0x10 this).2 = set_PC (PC (BPL 0x10 this).2) this).
Proof.
  intros this. apply (branch_handlers_frame BPL 0x10 this).
  cbn. tauto.
Defined.

(** X8.  The cycles of a taken branch: with PC and the target inside the
    64KB space, [branch] returns 1 when the target is in the page of PC (the
    PC already advanced past the instruction) and 2 when it is not. *)
Theorem branch_cycles (this : CPU) (pc b : Z) :
  PC this = Some pc ->
  0x0100 <= pc <= 0xFF00 ->
  0 <= b <= 255 ->
  let target := if b >? 0x7f then pc + b else pc - 256 + b in
  (branch b this).1 = (if target / 256 =? pc / 256 then 1 else 2).
Proof.
  intros Hpc Bpc Bb target. unfold branch. cbn [fst].
  rewrite Hpc. unfold num. cbn [js_add js_sub js_gt]. unfold target.
  change (Some pc [&] Some 65280) with (page pc).
  destruct (Z.gtb_spec b 127);
    match goal with
    | |- context [Some ?t [&] Some 65280] =>
        change (Some t [&] Some 65280) with (page t);
        rewrite !page_value by lia;
        destruct (Z.eqb_spec (t mod 65536 - t mod 256)
                    (pc mod 65536 - pc mod 256)),
          (Z.eqb_spec (t / 256) (pc / 256)); try reflexivity;
          Z.div_mod_to_equations; lia
    end.
Qed.

Lemma branch_cycles_witness :
  let this := set_PC 0x80F0 (new_CPU []) in
  let target := if 0x90 >? 0x7f then 0x80F0 + 0x90 else 0x80F0 - 256 + 0x90 in
  (branch 0x90 this).1 = (if target / 256 =? 0x80F0 / 256 then 1 else 2).
Proof.
  intros this. apply (branch_cycles this 0x80F0 0x90); [reflexivity | lia | lia].
Defined.

(** ** The step: errors and frame *)

Lemma arr_get_outside (a : Uint8Array) (z : Z) :
  z < 0 \/ Z.of_nat (length a) <= z -> arr_get a (Some z) = None.
Proof.
  intros Hz. cbn [arr_get]. destruct (Z.leb_spec 0 z); [| reflexivity].
  apply lookup_ge_None. lia.
Qed.

(** X9.  A step whose PC is outside the array [ops] (below 0 or at its
    length and beyond, so every PC when [ops] is empty) throws, and the object
    is unchanged. *)
Theorem runop_PC_outside_ops (this : CPU) (pc : Z) :
  PC this = Some pc ->
  pc < 0 \/ Z.of_nat (length (ops this)) <= pc ->
  runop this = (Throw TypeError, this).
Proof.
  intros Hpc Hout. unfold runop, loadOpCode. rewrite Hpc.
  rewrite (arr_get_outside _ _ Hout). reflexivity.
Qed.

Lemma runop_PC_outside_ops_witness :
  runop (new_CPU []) = (Throw TypeError, new_CPU []).
Proof.
  apply (runop_PC_outside_ops (new_CPU []) 0); [reflexivity | right; cbn; lia].
Defined.

Lemma handlers_keep_index (f : OpCodeFunc) (oper : jsnum) (this : CPU) :
  In f handlers ->
  X (f oper this).2 = X this /\ Y (f oper this).2 = Y this /\
  flag_B4 (f oper this).2 = flag_B4 this /\
  flag_B5 (f oper this).2 = flag_B5 this.
Proof.
  intros Hin. cbn in Hin.
  repeat (destruct Hin as [<- | Hin]); [.. | contradiction].
  all: try (repeat split; reflexivity).
  all: unfold BCC, BCS, BEQ, BMI, BNE, BPL, BVC, BVS;
    match goal with
    | |- context [if ?c then branch _ _ else _] =>
        destruct c; repeat split; reflexivity
    end.
Qed.

(** X10.  No step writes the index registers or the break flags: X, Y, B4 and
    B5 are after a step, completed or not, what they were before. *)
Theorem runop_keeps_index_and_break_flags (this : CPU) :
  X (runop this).2 = X this /\ Y (runop this).2 = Y this /\
  flag_B4 (runop this).2 = flag_B4 this /\
  flag_B5 (runop this).2 = flag_B5 this.
Proof.
  unfold runop. destruct (loadOpCode this (PC this)) as [opc |];
    [| repeat split; reflexivity].
  cbn [opCodeMap_get]. destruct (opCodeMap !! opc) as [info |] eqn:Hinfo;
    [| repeat split; reflexivity].
  destruct (address _ _ _) as [oper cycleAdd1].
  destruct (op info oper _) as [ret s] eqn:Hop. cbn [snd].
  change s with (ret, s).2. rewrite <- Hop.
  apply (handlers_keep_index (op info) oper
           (set_PC (PC this [+] bytes info) this)).
  exact (proj1 (opCodeMap_entry _ _ Hinfo)).
Qed.

(** The handlers other than BRK. *)
Lemma opCodeMap_entry_not_BRK opc info :
  opCodeMap !! opc = Some info ->
  opc <> 0x00 ->
  In (op info) handlers_without_BRK.
Proof.
  unfold opCodeMap, initOpCodeMap, addOpCode. cbv zeta. intros H Hopc.
  repeat (apply lookup_insert_Some in H;
          destruct H as [[Hkey <-] | [_ H]];
          [ first [ cbn; pick_disjunct | congruence ] | ]).
  rewrite lookup_empty in H. discriminate.
Qed.

Lemma handlers_without_BRK_keep_mem (f : OpCodeFunc) oper (this : CPU) :
  In f handlers_without_BRK ->
  mem (f oper this).2 = mem this /\ SP (f oper this).2 = SP this.
Proof.
  intros Hin. cbn in Hin.
  repeat (destruct Hin as [<- | Hin]); [.. | contradiction].
  all: try (split; reflexivity).
  all: unfold BCC, BCS, BEQ, BMI, BNE, BPL, BVC, BVS;
    match goal with
    | |- context [if ?c then branch _ _ else _] =>
        destruct c; split; reflexivity
    end.
Qed.

(** X11.  Only BRK writes memory or moves the stack pointer: a step whose
    opcode byte is not 0x00 leaves [mem] and SP as they were. *)
Theorem runop_writes_mem_only_for_BRK (this : CPU) :
  loadOpCode this (PC this) <> Some 0x00 ->
  mem (runop this).2 = mem this /\ SP (runop this).2 = SP this.
Proof.
  intros Hopc. unfold runop.
  destruct (loadOpCode this (PC this)) as [opc |]; [| split; reflexivity].
  cbn [opCodeMap_get]. destruct (opCodeMap !! opc) as [info |] eqn:Hinfo;
    [| split; reflexivity].
  destruct (address _ _ _) as [oper cycleAdd1].
  destruct (op info oper _) as [ret s] eqn:Hop. cbn [snd].
  change s with (ret, s).2. rewrite <- Hop.
  apply (handlers_without_BRK_keep_mem (op info) oper
           (set_PC (PC this [+] bytes info) this)).
  apply (opCodeMap_entry_not_BRK opc); [exact Hinfo | congruence].
Qed.

Lemma runop_writes_mem_only_for_BRK_witness :
  let this := new_CPU [0x0a] in
  mem (runop this).2 = mem this /\ SP (runop this).2 = SP this.
Proof.
  intros this. apply (runop_writes_mem_only_for_BRK this).
  cbn. discriminate.
Defined.

(** X12.  The steps of the four flag-clearing opcodes: CLC (0x18), CLD (0xd8),
    CLI (0x58) and CLV (0xb8) return 2, advance PC by 2 (the length stored in
    their entries) and clear their flag; nothing else changes. *)
Theorem runop_flag_clears (this : CPU) (opc : Z) :
  loadOpCode this (PC this) = Some opc ->
  let this' := set_PC (PC this [+] 2) this in
  (opc = 0x18 -> runop this = (Return 2, set_C 0 this')) /\
  (opc = 0xd8 -> runop this = (Return 2, set_D 0 this')) /\
  (opc = 0x58 -> runop this = (Return 2, set_I 0 this')) /\
  (opc = 0xb8 -> runop this = (Return 2, set_V 0 this')).
Proof.
  intros Hopc this'. unfold runop. rewrite Hopc.
  repeat split; intros ->.
  - change (opCodeMap_get (Some 0x18))
      with (Some (mkOpCodeInfo CLC 0x18 ACCUMULATOR 2 IMPLIED)).
    cbn [bytes addr cycles op]. change (2 =? 2) with true. cbv iota.
    unfold address. reflexivity.
  - change (opCodeMap_get (Some 0xd8))
      with (Some (mkOpCodeInfo CLD 0xd8 ACCUMULATOR 2 IMPLIED)).
    cbn [bytes addr cycles op]. change (2 =? 2) with true. cbv iota.
    unfold address. reflexivity.
  - change (opCodeMap_get (Some 0x58))
      with (Some (mkOpCodeInfo CLI 0x58 ACCUMULATOR 2 IMPLIED)).
    cbn [bytes addr cycles op]. change (2 =? 2) with true. cbv iota.
    unfold address. reflexivity.
  - change (opCodeMap_get (Some 0xb8))
      with (Some (mkOpCodeInfo CLV 0xb8 ACCUMULATOR 2 IMPLIED)).
    cbn [bytes addr cycles op]. change (2 =? 2) with true. cbv iota.
    unfold address. reflexivity.
Qed.

Lemma runop_flag_clears_witness :
  let this := set_C 1 (new_CPU [0x18]) in
  runop this = (Return 2, set_C 0 (set_PC (PC this [+] 2) this)).
Proof.
  intros this.
  apply (runop_flag_clears this 0x18); reflexivity.
Defined.

(** What the entries of the table store: each is under its own opcode byte,
    with a length from 2 to 7 and a cycle count from 0 to 12. *)
Lemma opCodeMap_entry_numbers k info :
  opCodeMap !! k = Some info ->
  opc info = k /\ 2 <= bytes info <= 7 /\ 0 <= cycles info <= 12.
Proof.
  unfold opCodeMap, initOpCodeMap, addOpCode. cbv zeta. intros H.
  repeat (apply lookup_insert_Some in H;
          destruct H as [[Hkey <-] | [_ H]];
          [ cbn; unfold RELATIVE, ACCUMULATOR, IMPLIED, IMMEDIATE, INDIRECT,
              X_INDIRECT, INDIRECT_Y, ZEROPAGE, ZEROPAGE_X, ZEROPAGE_Y,
              ABSOLUTE, ABSOLUTE_X, ABSOLUTE_Y; lia | ]).
  rewrite lookup_empty in H. discriminate.
Qed.

Lemma handlers_return_range (f : OpCodeFunc) (oper : jsnum) (this : CPU) :
  In f handlers -> 0 <= (f oper this).1 <= 2.
Proof.
  intros Hin. cbn in Hin.
  repeat (destruct Hin as [<- | Hin]); [.. | contradiction].
  all: try (cbn; lia).
  all: unfold BCC, BCS, BEQ, BMI, BNE, BPL, BVC, BVS;
    match goal with
    | |- context [if ?c then branch _ _ else _] =>
        destruct c; [unfold branch; cbn [fst] | cbn; lia]
    end;
    match goal with |- context [if ?c then 1 else 2] => destruct c end; lia.
Qed.

(** X13.  A completed step returns a cycle count from 0 to 14, and leaves in
    PC a number at most 7 above and at most 254 below the PC it started
    from. *)
Theorem runop_cycles_and_PC_range (this this' : CPU) (c pc : Z) :
  runop this = (Return c, this') ->
  PC this = Some pc ->
  0 <= c <= 14 /\
  exists pc', PC this' = Some pc' /\ pc - 254 <= pc' <= pc + 7.
Proof.
  intros Hrun Hpc.
  destruct (runop_completed _ _ _ Hrun) as (k & info & _ & Hinfo & -> & ->).
  destruct (opCodeMap_entry_numbers _ _ Hinfo) as (_ & Hbytes & Hcycles).
  pose proof (proj1 (opCodeMap_entry _ _ Hinfo)) as Hin.
  pose proof (handlers_return_range _ 0
                (set_PC (PC this [+] bytes info) this) Hin) as Hret.
  split.
  - unfold js_or_zero. destruct (_ =? 0); lia.
  - clear Hret. rewrite Hpc. cbn [js_add num].
    generalize dependent (bytes info). intros n Hn.
    cbn in Hin.
    repeat (destruct Hin as [<- | Hin]); [.. | contradiction].
    all: try (exists (pc + n); split; [reflexivity | lia]).
    all: unfold BCC, BCS, BEQ, BMI, BNE, BPL, BVC, BVS;
      match goal with
      | |- context [if ?c then branch _ _ else _] => destruct c
      end;
      [ exists (pc + n - 256 + 0); split; [reflexivity | lia]
      | exists (pc + n); split; [reflexivity | lia] ].
Qed.

Lemma runop_cycles_and_PC_range_witness :
  let this := new_CPU [0x90; 0x00] in
  0 <= 2 <= 14 /\
  exists pc', PC (runop this).2 = Some pc' /\ 0 - 254 <= pc' <= 0 + 7.
Proof.
  intros this.
  apply (runop_cycles_and_PC_range this (runop this).2 2 0); [| reflexivity].
  transitivity ((runop this).1, (runop this).2);
    [apply surjective_pairing | f_equal; vm_compute; reflexivity].
Defined.

(** ** The stack *)

(** X14.  [push] for any value and any SP inside the memory: the cell at SP
    receives the value reduced to a byte (0 for a value that is not a
    number), every other cell and every register and flag but SP is
    unchanged, and SP becomes 0x0100 + (SP - 1) mod 256. *)
Theorem push_effect (value : jsnum) (this : CPU) :
  0 <= SP this < 0x10000 ->
  mem_64K this ->
  arr_get (mem (push value this)) (SP this) = Some (ToUint8 value) /\
  (forall a : Z, a <> SP this ->
     arr_get (mem (push value this)) a = arr_get (mem this) a) /\
  push value this
  = set_SP (0x0100 + (SP this - 1) mod 256)
      (set_mem (mem (push value this)) this).
Proof.
  intros HSP Hlen. unfold mem_64K in Hlen. repeat split.
  - destruct (push_fields value this) as [-> _].
    cbn [arr_get arr_set num]. destruct (Z.leb_spec 0 (SP this)); [| lia].
    apply list_lookup_insert_eq. lia.
  - intros a Ha. now apply push_frame.
  - destruct (push_fields value this) as [_ HSP'].
    rewrite <- HSP'. unfold push. reflexivity.
Qed.

Lemma push_effect_witness :
  let this := set_SP 0x01FF (new_CPU []) in
  arr_get (mem (push 0x8009 this)) (SP this) = Some (ToUint8 0x8009) /\
  (forall a : Z, a <> SP this ->
     arr_get (mem (push 0x8009 this)) a = arr_get (mem this) a) /\
  push 0x8009 this
  = set_SP (0x0100 + (SP this - 1) mod 256)
      (set_mem (mem (push 0x8009 this)) this).
Proof.
  intros this.
  apply (push_effect 0x8009 this); [cbn; lia | vm_compute; reflexivity].
Defined.

Lemma push_all_SP_nonempty (values : list jsnum) (value : jsnum) (this : CPU) :
  SP (push_all (value :: values) this)
  = 0x0100 + (SP this - Z.of_nat (length (value :: values))) mod 256.
Proof.
  revert value this. induction values as [| w values IH]; intros value this.
  - cbn. apply (proj2 (push_fields value this)).
  - change (push_all (value :: w :: values) this)
      with (push_all (w :: values) (push value this)).
    rewrite IH. rewrite (proj2 (push_fields value this)).
    f_equal. cbn [length]. Z.div_mod_to_equations. lia.
Qed.

(** X15.  Successive pushes never overflow: after n >= 1 pushes SP is in the
    stack page, at 0x0100 + (SP - n) mod 256; the offset wraps below 0x00,
    so 256 pushes from a stack-page SP bring SP back to where it was. *)
Theorem push_all_SP (values : list jsnum) (this : CPU) :
  values <> [] ->
  SP (push_all values this)
  = 0x0100 + (SP this - Z.of_nat (length values)) mod 256.
Proof.
  destruct values as [| value values]; [congruence |].
  intros _. apply push_all_SP_nonempty.
Qed.

Lemma push_all_SP_witness :
  let this := set_SP 0x0100 (new_CPU []) in
  SP (push_all [num 1; num 2] this)
  = 0x0100 + (SP this - Z.of_nat (length [num 1; num 2])) mod 256.
Proof.
  intros this. apply (push_all_SP [num 1; num 2] this). discriminate.
Defined.

(** ** Addressing modes *)

Lemma js_and_0xff_num (z : Z) : z [&] 0xff = z mod 256.
Proof. rewrite js_and_0xff. cbn [ToInt32 num]. apply wrap32_mod_256. Qed.

(** X16.  The zero-page modes read page zero only: for every operand and
    every index value, the address read is the operand, plus X or Y for the
    indexed modes, reduced modulo 256; no extra cycle is added. *)
Theorem address_zero_page (this : CPU) (arg : Z) :
  address this ZEROPAGE arg = (arr_get (mem this) (arg mod 256), 0) /\
  address this ZEROPAGE_X arg
  = (arr_get (mem this) ((arg + X this) mod 256), 0) /\
  address this ZEROPAGE_Y arg
  = (arr_get (mem this) ((arg + Y this) mod 256), 0).
Proof.
  unfold address.
  change (ZEROPAGE =? ABSOLUTE) with false.
  change (ZEROPAGE_X =? ABSOLUTE) with false.
  change (ZEROPAGE_Y =? ABSOLUTE) with false.
  cbn -[js_and arr_get]. unfold num. cbn [js_add].
  change (Some 255) with (num 0xff).
  change (Some arg) with (num arg).
  change (Some (arg + X this)) with (num (arg + X this)).
  change (Some (arg + Y this)) with (num (arg + Y this)).
  rewrite !js_and_0xff_num. repeat split.
Qed.

(** X17.  Absolute and absolute-Y addressing inside the 64KB space: absolute
    reads the byte at the operand with no extra cycle; absolute-Y reads the
    byte at operand + Y and adds one cycle exactly when adding Y carries out
    of the low byte of the operand. *)
Theorem address_ABSOLUTE_Y_page_cross (this : CPU) (arg : Z) :
  0 <= arg <= 0xFFFF ->
  0 <= Y this <= 255 ->
  address this ABSOLUTE arg = (arr_get (mem this) arg, 0) /\
  address this ABSOLUTE_Y arg
  = (arr_get (mem this) (arg + Y this),
     if 256 <=? arg mod 256 + Y this then 1 else 0).
Proof.
  intros Harg HY. split; [reflexivity |].
  unfold address, address_ABSOLUTE_Y.
  change (ABSOLUTE_Y =? ABSOLUTE) with false.
  change (ABSOLUTE_Y =? ABSOLUTE_X) with false.
  change (ABSOLUTE_Y =? ABSOLUTE_Y) with true. cbv iota zeta.
  change (num arg [+] num (Y this)) with (num (arg + Y this)).
  change (num arg [&] num 65280) with (page arg).
  change (num (arg + Y this) [&] num 65280) with (page (arg + Y this)).
  rewrite !page_value by lia. f_equal.
  destruct (Z.eqb_spec (arg mod 65536 - arg mod 256)
              ((arg + Y this) mod 65536 - (arg + Y this) mod 256)),
    (Z.leb_spec 256 (arg mod 256 + Y this)); try reflexivity;
    Z.div_mod_to_equations; lia.
Qed.

Lemma address_ABSOLUTE_Y_page_cross_witness :
  let this := set_Y 0x20 (new_CPU []) in
  address this ABSOLUTE 0x12F0 = (arr_get (mem this) 0x12F0, 0) /\
  address this ABSOLUTE_Y 0x12F0
  = (arr_get (mem this) (0x12F0 + Y this),
     if 256 <=? 0x12F0 mod 256 + Y this then 1 else 0).
Proof.
  intros this. apply (address_ABSOLUTE_Y_page_cross this 0x12F0); cbn; lia.
Defined.

(** X18.  Indexed-indirect addressing takes both pointer bytes from page
    zero, at (arg + X) mod 256 and (arg + X + 1) mod 256, so a pointer at
    0xFF has its high byte at 0x00; the address read is then the high byte
    shifted left by 8 + low (count modulo 32, result reduced to 32 bits), and
    no cycle is added. *)
Theorem address_X_INDIRECT_pointer (this : CPU) (arg ll hh : Z) :
  arr_get (mem this) ((arg + X this) mod 256) = Some ll ->
  arr_get (mem this) ((arg + X this + 1) mod 256) = Some hh ->
  0 <= ll <= 255 ->
  0 <= hh <= 255 ->
  address this X_INDIRECT arg
  = (arr_get (mem this) (wrap32 (Z.shiftl hh ((8 + ll) mod 32))), 0).
Proof.
  intros Hll Hhh Bll Bhh. unfold address.
  change (X_INDIRECT =? ABSOLUTE) with false.
  change (X_INDIRECT =? ABSOLUTE_X) with false.
  change (X_INDIRECT =? ABSOLUTE_Y) with false.
  change (X_INDIRECT =? IMMEDIATE) with false.
  change (X_INDIRECT =? INDIRECT) with false.
  change (X_INDIRECT =? X_INDIRECT) with true. cbv iota zeta.
  rewrite (js_and_0xff_num arg).
  change (num (arg mod 256) [+] num (X this))
    with (num (arg mod 256 + X this)).
  change (num (arg mod 256 + X this) [+] num 1)
    with (num (arg mod 256 + X this + 1)).
  rewrite !js_and_0xff_num.
  replace ((arg mod 256 + X this) mod 256) with ((arg + X this) mod 256)
    by (Z.div_mod_to_equations; lia).
  replace ((arg mod 256 + X this + 1) mod 256)
    with ((arg + X this + 1) mod 256) by (Z.div_mod_to_equations; lia).
  unfold num in Hll, Hhh |- *. rewrite Hll, Hhh.
  unfold js_shl. cbn [js_add ToInt32].
  rewrite (wrap32_small hh), (wrap32_small (8 + ll)) by lia. reflexivity.
Qed.

(** X19.  Indirect-indexed addressing takes the pointer bytes from page zero
    at arg mod 256 and (arg + 1) mod 256, forms the address as for the other
    indirect modes, reads the byte at address + Y, and adds one cycle exactly
    when the page bits of address and address + Y differ. *)
Theorem address_INDIRECT_Y_pointer (this : CPU) (arg ll hh : Z) :
  arr_get (mem this) (arg mod 256) = Some ll ->
  arr_get (mem this) ((arg + 1) mod 256) = Some hh ->
  0 <= ll <= 255 ->
  0 <= hh <= 255 ->
  let addr := wrap32 (Z.shiftl hh ((8 + ll) mod 32)) in
  address this INDIRECT_Y arg
  = (arr_get (mem this) (addr + Y this),
     if page addr =? page (addr + Y this) then 0 else 1).
Proof.
  intros Hll Hhh Bll Bhh addr. unfold address.
  change (INDIRECT_Y =? ABSOLUTE) with false.
  change (INDIRECT_Y =? ABSOLUTE_X) with false.
  change (INDIRECT_Y =? ABSOLUTE_Y) with false.
  change (INDIRECT_Y =? IMMEDIATE) with false.
  change (INDIRECT_Y =? INDIRECT) with false.
  change (INDIRECT_Y =? X_INDIRECT) with false.
  change (INDIRECT_Y =? INDIRECT_Y) with true. cbv iota zeta.
  rewrite (js_and_0xff_num arg).
  change (num (arg mod 256) [+] num 1) with (num (arg mod 256 + 1)).
  rewrite js_and_0xff_num.
  replace ((arg mod 256 + 1) mod 256) with ((arg + 1) mod 256)
    by (Z.div_mod_to_equations; lia).
  unfold page, num in *. rewrite Hll, Hhh.
  assert (Haddr : Some hh [<<] (Some 8 [+] Some ll) = addr).
  { unfold js_shl, addr. cbn [js_add ToInt32].
    rewrite (wrap32_small hh), (wrap32_small (8 + ll)) by lia. reflexivity. }
  rewrite Haddr. cbn [js_add].
  destruct (_ =? _); reflexivity.
Qed.

Lemma address_X_INDIRECT_pointer_witness :
  address pointer_scenario X_INDIRECT 0xF0
  = (arr_get (mem pointer_scenario)
       (wrap32 (Z.shiftl 0x03 ((8 + 0x01) mod 32))), 0).
Proof.
  apply (address_X_INDIRECT_pointer pointer_scenario 0xF0 0x01 0x03);
    [reflexivity | reflexivity | lia | lia].
Defined.

Lemma address_INDIRECT_Y_pointer_witness :
  let addr := wrap32 (Z.shiftl 0x03 ((8 + 0x01) mod 32)) in
  address pointer_scenario INDIRECT_Y 0xFF
  = (arr_get (mem pointer_scenario) (addr + Y pointer_scenario),
     if page addr =? page (addr + Y pointer_scenario) then 0 else 1).
Proof.
  apply (address_INDIRECT_Y_pointer pointer_scenario 0xFF 0x01 0x03);
    [reflexivity | reflexivity | lia | lia].
Defined.

(** ** The emulator object *)

(** The step of a new CPU reads the first byte of its array. *)
Lemma runop_new_CPU (ops : Uint8Array) :
  (runop (new_CPU ops)).1 = Throw TypeError <->
  opCodeMap_get (ops !! 0%nat) = None.
Proof.
  unfold runop, loadOpCode.
  change (arr_get _ (PC (new_CPU ops))) with (ops !! 0%nat).
  destruct (opCodeMap_get (ops !! 0%nat)) as [info |].
  - destruct (address _ _ _) as [oper cycleAdd1].
    destruct (op info oper _) as [ret s]. cbn [fst]. split; discriminate.
  - cbn [fst]. split; reflexivity.
Qed.

(** X20.  [run] after [loadRom]: the call returns exactly when the rom has a
    byte at index 16 (the first after the 16 bytes it skips) and that byte
    has an entry in the opcode table; otherwise it throws a TypeError. *)
Theorem run_completes_iff (r : Uint8Array) (this : NesEmu) :
  run (loadRom r this) = None <->
  exists b info, r !! 16%nat = Some b /\ opCodeMap !! b = Some info.
Proof.
  unfold run, loadRom. cbn [rom].
  pose proof (runop_new_CPU (drop 16 r)) as Hthrow.
  assert (Hd : (drop 16 r : list Z) !! 0%nat = (r : list Z) !! 16%nat)
    by (rewrite lookup_drop; reflexivity).
  unfold Uint8Array in *. rewrite Hd in Hthrow.
  destruct (runop (new_CPU (drop 16 r))).1 as [c | []].
  - split; [intros _ | reflexivity].
    destruct (r !! 16%nat) as [b |]; cbn [opCodeMap_get] in Hthrow.
    + destruct (opCodeMap !! b) as [info |] eqn:Hinfo; [eauto |].
      exfalso. assert (Return c = Throw TypeError) by now apply Hthrow.
      discriminate.
    + exfalso. assert (Return c = Throw TypeError) by now apply Hthrow.
      discriminate.
  - split; [discriminate |]. intros (b & info & Hb & Hinfo).
    rewrite Hb in Hthrow. cbn [opCodeMap_get] in Hthrow.
    rewrite Hinfo in Hthrow. destruct Hthrow as [Hthrow _].
    specialize (Hthrow eq_refl). discriminate.
Qed.



(** ** The earlier copy of the CPU *)



Lemma Part001_opCodeMap_entry k info :
  Part001.opCodeMap !! k = Some info ->
  Part001.op info = Part001.ADC /\
  In (k, Part001.addr info, Part001.bytes info, Part001.cycles info)
    [(0x69, 2, 2, 3); (0x65, 2, 3, 7); (0x75, 2, 4, 8); (0x6d, 3, 4, 10);
     (0x7d, 3, 4, 11); (0x79, 3, 4, 12); (0x61, 2, 6, 5); (0x71, 2, 5, 6)].
Proof.
  unfold Part001.opCodeMap, Part001.initOpCodeMap, Part001.addOpCode.
  cbv zeta. intros H.
  repeat (apply lookup_insert_Some in H;
          destruct H as [[<- <-] | [_ H]];
          [ cbn; split; pick_disjunct | ]).
  rewrite lookup_empty in H. discriminate.
Qed.

(** X23.  A step of the earlier copy: it throws, changing nothing, unless the
    byte at PC is one of the eight ADC opcodes; when it completes it has
    changed PC alone (the ADC handler is empty) and returns a count from 3 to
    12. *)
Theorem Part001_runop_moves_PC_only (this : Part001.CPU) :
  match Part001.runop this with
  | (Throw _, this') => this' = this
  | (Return c, this') =>
      this' = Part001.set_PC (Part001.PC this') this /\ 3 <= c <= 12 /\
      exists k, Part001.loadOpCode this (Part001.PC this) = Some k /\
                In k [0x69; 0x65; 0x75; 0x6d; 0x7d; 0x79; 0x61; 0x71]
  end.
Proof.
  unfold Part001.runop.
  destruct (Part001.loadOpCode this (Part001.PC this)) as [k |];
    [| reflexivity].
  cbn [Part001.opCodeMap_get].
  destruct (Part001.opCodeMap !! k) as [info |] eqn:Hinfo; [| reflexivity].
  destruct (Part001_opCodeMap_entry _ _ Hinfo) as (Hop & Hin).
  rewrite Hop. destruct info as [op' opc' addr' bytes' cycles'].
  cbn [Part001.op Part001.opc Part001.addr Part001.bytes Part001.cycles] in *.
  cbn in Hin.
  repeat (destruct Hin as [[= <- <- <- <-] | Hin]); [.. | contradiction].
  all: cbv iota beta; unfold Part001.ADC;
    try change (Part001.address this 2 ?a) with ((num 0, 0) : jsnum * Z);
    cbn -[In]; (split; [reflexivity | split; [lia | eexists; split;
      [reflexivity | cbn; pick_disjunct]]]).
Qed.
